(** * Payment-attempt generator of the e-commerce data scripts

    Shallow embedding of [src/data/python_scripts/insert_payments.py]
    (distribution helpers, payment-attempt simulation, batch insertion)
    and of [sample_unique_products_weighted] from
    [src/data/python_scripts/insert_order_items.py].

    Python floats are modelled as rationals [Q]; [Decimal] amounts too.
    Timestamps ([datetime]) are seconds as [Z].  Python exceptions are the
    constructors of [py_error]; the generator [random.Random] is the type
    class [PyRandom] below, so every statement holds for any generator. *)

From Stdlib Require Import String List ZArith QArith Lia Permutation Bool.
Import ListNotations.
Open Scope Z_scope.

(* ------------------------------------------------------------------ *)
(** ** Results and the generator monad *)

Inductive py_error :=
| ValueError
| KeyError
| IndexError
| StopIteration
| NonTermination.  (** a [while] loop that did not stop within the fuel *)

Inductive result (A : Type) :=
| Ok (a : A)
| Err (e : py_error).
Arguments Ok {A} a.
Arguments Err {A} e.

(** The operations of [random.Random] the scripts use: [random()] draws a
    float in [0,1); [_randbelow(n)] draws an integer in [0,n) and is what
    [randint] is built on. *)
Class PyRandom (R : Type) := {
  rng_random : R -> Q * R;
  rng_randbelow : R -> Z -> Z * R
}.

Section Monad.
Context {R : Type} `{PyRandom R}.

Definition M (A : Type) := R -> result (A * R).

Definition ret {A} (a : A) : M A := fun r => Ok (a, r).
Definition raise {A} (e : py_error) : M A := fun _ => Err e.
Definition bind {A B} (m : M A) (k : A -> M B) : M B :=
  fun r => match m r with Ok (a, r') => k a r' | Err e => Err e end.
Definition lift {A} (x : result A) : M A :=
  match x with Ok a => ret a | Err e => raise e end.

Definition random : M Q := fun r => Ok (rng_random r).
Definition randbelow (n : Z) : M Z := fun r => Ok (rng_randbelow r n).
(** [randint(a, b)] is [a + _randbelow(b - a + 1)]. *)
Definition randint (a b : Z) : M Z :=
  bind (randbelow (b - a + 1)) (fun x => ret (a + x)).
End Monad.

Declare Scope py_scope.
Notation "x <- m ;; k" := (bind m (fun x => k))
  (at level 61, m at next level, right associativity) : py_scope.
Notation "' p <- m ;; k" := (bind m (fun x => match x with p => k end))
  (at level 61, p pattern, m at next level, right associativity) : py_scope.
Open Scope py_scope.

(* ------------------------------------------------------------------ *)
(** ** Small Python helpers *)

Definition Qltb (x y : Q) : bool := negb (Qle_bool y x).

(** [sum(xs)]: a left fold from [0]. *)
Definition py_sum (xs : list Q) : Q := fold_left Qplus xs 0%Q.

(** [itertools.accumulate]: running sums. *)
Fixpoint accumulate_from (acc : Q) (xs : list Q) : list Q :=
  match xs with
  | [] => []
  | x :: xs' => let a := (acc + x)%Q in a :: accumulate_from a xs'
  end.
Definition accumulate (xs : list Q) : list Q :=
  match xs with
  | [] => []
  | x :: xs' => x :: accumulate_from x xs'
  end.

(** [bisect.bisect_right(a, x, lo, hi)]; each round shrinks [hi - lo],
    so [length a] rounds are enough when [hi <= length a]. *)
Fixpoint bisect_right_fuel (fuel : nat) (a : list Q) (x : Q) (lo hi : nat) : nat :=
  match fuel with
  | O => lo
  | S f =>
      if Nat.ltb lo hi then
        let mid := Nat.div (lo + hi) 2 in
        if Qltb x (nth mid a 0%Q) then bisect_right_fuel f a x lo mid
        else bisect_right_fuel f a x (S mid) hi
      else lo
  end.
Definition bisect_right (a : list Q) (x : Q) (lo hi : nat) : nat :=
  bisect_right_fuel (length a) a x lo hi.

(** [dict.get(k, d)] on a dict kept as an association list. *)
Fixpoint lookup {K V} (eqb : K -> K -> bool) (k : K) (d : list (K * V)) : option V :=
  match d with
  | [] => None
  | (k', v) :: d' => if eqb k k' then Some v else lookup eqb k d'
  end.

(* ------------------------------------------------------------------ *)
(** ** Weighted distribution engine *)

Section Engine.
Context {R : Type} `{PyRandom R}.
Local Abbreviation M := (@M R).

(** CPython's [Random.choices(population, weights, k=1)[0]]
    (Python >= 3.9). *)
Definition py_choices {A} (population : list A) (weights : list Q) : M A :=
  let n := length population in
  let cum_weights := accumulate weights in
  if negb (Nat.eqb (length cum_weights) n) then raise ValueError else
  match rev cum_weights with
  | [] => raise IndexError                      (* cum_weights[-1] *)
  | last_cum :: _ =>
      let total := (last_cum + 0)%Q in
      if Qle_bool total 0 then raise ValueError else
      u <- random ;;
      let i := bisect_right cum_weights (u * total)%Q 0 (n - 1) in
      match nth_error population i with
      | Some x => ret x
      | None => raise IndexError
      end
  end.

(** [weighted_choice_key] *)
Definition weighted_choice_key {K} (weights : list (K * Q)) : M K :=
  match weights with
  | [] => raise ValueError
  | _ => py_choices (map fst weights) (map snd weights)
  end.
End Engine.

(** [normalize_distribution] *)
Definition normalize_distribution {K} (dist : list (K * Q)) : result (list (K * Q)) :=
  match dist with
  | [] => Err ValueError
  | _ =>
      if existsb (fun v => Qltb v 0) (map snd dist) then Err ValueError else
      let total := py_sum (map snd dist) in
      if Qle_bool total 0 then Err ValueError
      else Ok (map (fun '(k, v) => (k, v / total)%Q) dist)
  end.

(* ------------------------------------------------------------------ *)
(** ** Data model of [insert_payments.py] *)

(** One entry of [PAYMENT_METHOD_CONFIG]: a dict whose keys may be
    missing, hence the options; the getters below apply the defaults
    the script passes to [.get]. *)
Record method_cfg := {
  mc_weight : option Q;
  mc_max_attempts : option Z;
  mc_stay_with_method_prob : option Q;
  mc_success_rate : option Q
}.

Definition empty_cfg : method_cfg := Build_method_cfg None None None None.

(** [OrderInfo] *)
Record order_info := {
  order_id : Z;
  order_date : Z;
  order_status : Z;
  order_total : Q
}.

(** A [payments] row:
    [(order_id, attempt_no, payment_date, amount_paid, payment_method_id,
      payment_status_id)]. *)
Record row := {
  r_order_id : Z;
  r_attempt_no : Z;
  r_payment_date : Z;
  r_amount_paid : Q;
  r_payment_method_id : Z;
  r_payment_status_id : Z
}.

Definition MAX_GLOBAL_ATTEMPTS : Z := 4.
Definition PAYMENT_WINDOW_SECONDS : Z := 48 * 60 * 60.
Definition GLOBAL_ATTEMPT_DIST : list (Z * Q) :=
  [(1, (45#1)%Q); (2, (32#1)%Q); (3, (18#1)%Q); (4, (5#1)%Q)].
Definition GLOBAL_ATTEMPT_WEIGHTS : result (list (Z * Q)) :=
  normalize_distribution GLOBAL_ATTEMPT_DIST.

(** The status of a cancelled order ([order.order_status != 5]). *)
Definition CANCELLED_STATUS : Z := 5.

Definition PAYMENT_METHOD_CONFIG : list (string * method_cfg) :=
  [("card", Build_method_cfg (Some (58#100)) (Some 3%Z) (Some (68#100)) (Some (62#100)));
   ("paypal", Build_method_cfg (Some (18#100)) (Some 3%Z) (Some (55#100)) (Some (56#100)));
   ("mbway", Build_method_cfg (Some (18#100)) (Some 3%Z) (Some (60#100)) (Some (50#100)));
   ("bank_transfer", Build_method_cfg (Some (6#100)) (Some 2%Z) (Some (35#100)) (Some (35#100)))]%string%Q.

Definition BATCH_SIZE : Z := 20000.

(** [cfg.get(...)] with the defaults of the script. *)
Definition cfg_weight (c : method_cfg) : Q :=
  match mc_weight c with Some w => w | None => 0%Q end.
Definition cfg_max_attempts (c : method_cfg) : Z :=
  match mc_max_attempts c with Some m => m | None => MAX_GLOBAL_ATTEMPTS end.
Definition cfg_stay_prob (c : method_cfg) : Q :=
  match mc_stay_with_method_prob c with Some p => p | None => 1%Q end.
Definition cfg_success_rate (c : method_cfg) : Q :=
  match mc_success_rate c with Some p => p | None => 0%Q end.

(** [min(max_attempts, MAX_GLOBAL_ATTEMPTS)] *)
Definition cap_of (c : method_cfg) : Z := Z.min (cfg_max_attempts c) MAX_GLOBAL_ATTEMPTS.

(** [list.remove(x)] when [x in list] (first occurrence). *)
Fixpoint list_remove (x : string) (l : list string) : list string :=
  match l with
  | [] => []
  | y :: l' => if String.eqb x y then l' else y :: list_remove x l'
  end.

(** Sorting of the offsets ([sorted(chosen)]). *)
Fixpoint insert_sorted (x : Z) (l : list Z) : list Z :=
  match l with
  | [] => [x]
  | y :: l' => if x <=? y then x :: l else y :: insert_sorted x l'
  end.
Fixpoint sort_Z (l : list Z) : list Z :=
  match l with
  | [] => []
  | x :: l' => insert_sorted x (sort_Z l')
  end.

(** [set.add] *)
Definition set_add (x : Z) (s : list Z) : list Z :=
  if existsb (Z.eqb x) s then s else x :: s.

(** Control flow out of one iteration of the attempt loop. *)
Inductive ctl := Continue | Break.

(** The local state of the attempt loop of [run] for one order:
    [paid], [attempt_no], [current_method], [method_counts] and the rows
    the iterations appended. *)
Record loop_state := {
  ls_paid : bool;
  ls_attempt_no : Z;
  ls_current : string;
  ls_counts : string -> Z;
  ls_rows : list row
}.

(** [method_counts[m] = method_counts.get(m, 0) + 1] *)
Definition incr_count (counts : string -> Z) (m : string) : string -> Z :=
  fun m' => if String.eqb m' m then counts m + 1 else counts m'.

Definition with_current (st : loop_state) (m : string) : loop_state :=
  Build_loop_state (ls_paid st) (ls_attempt_no st) m (ls_counts st) (ls_rows st).

(* ------------------------------------------------------------------ *)
(** ** Generation logic of [insert_payments.py] *)

Section Payments.
Context {R : Type} `{PyRandom R}.
Local Abbreviation M := (@M R).

(** [PAYMENT_METHOD_CONFIG] (a module constant of the script, kept
    abstract so that the statements cover every configuration). *)
Variable config : list (string * method_cfg).
(** [method_id_by_code] and [status_id_by_code], read from the database. *)
Variable method_id_by_code : list (string * Z).
Variable status_id_by_code : list (string * Z).
(** Bound on the rounds of the [while] loop of [sorted_attempt_times]. *)
Variable fuel : nat.

(** [PAYMENT_METHOD_CONFIG[m]] *)
Definition cfg_get (m : string) : M method_cfg :=
  match lookup String.eqb m config with
  | Some c => ret c
  | None => raise KeyError
  end.

(** [status_id_by_code[code]] *)
Definition status_get (code : string) : M Z :=
  match lookup String.eqb code status_id_by_code with
  | Some i => ret i
  | None => raise KeyError
  end.

(** [build_method_weights] *)
Definition build_method_weights : list (string * Q) :=
  map (fun '(m, c) => (m, cfg_weight c)) config.

(** [available_methods_by_cap] *)
Definition available_methods_by_cap (method_counts : string -> Z) : list string :=
  map fst (filter (fun '(m, c) => method_counts m <? cap_of c) config).

(** [{m: float(PAYMENT_METHOD_CONFIG[m].get("weight", 0.0)) for m in ms}] *)
Fixpoint weights_for (ms : list string) : M (list (string * Q)) :=
  match ms with
  | [] => ret []
  | m :: ms' =>
      c <- cfg_get m ;;
      rest <- weights_for ms' ;;
      ret ((m, cfg_weight c) :: rest)
  end.

(** [pick_next_method] *)
Definition pick_next_method (current : string) (method_counts : string -> Z) : M string :=
  let c := match lookup String.eqb current config with
           | Some c => c | None => empty_cfg end in
  let stay_prob := cfg_stay_prob c in
  stay <- (if cap_of c <=? method_counts current then ret false
           else u <- random ;; ret (Qle_bool u stay_prob)) ;;
  if stay then ret current else
  match list_remove current (available_methods_by_cap method_counts) with
  | [] => ret current
  | available =>
      weights <- weights_for available ;;
      weighted_choice_key weights
  end.

(** The [while len(chosen) < n_attempts] loop of [sorted_attempt_times]. *)
Fixpoint fill_offsets (f : nat) (n max_seconds : Z) (chosen : list Z) : M (list Z) :=
  if Z.of_nat (length chosen) <? n then
    match f with
    | O => raise NonTermination
    | S f' =>
        x <- randint 1 max_seconds ;;
        fill_offsets f' n max_seconds (set_add x chosen)
    end
  else ret chosen.

(** [sorted_attempt_times] *)
Definition sorted_attempt_times (base_dt n_attempts : Z) : M (list Z) :=
  if n_attempts <=? 0 then ret [] else
  let max_seconds := Z.max 1 (PAYMENT_WINDOW_SECONDS - 2) in
  let n := Z.min n_attempts max_seconds in
  chosen <- fill_offsets fuel n max_seconds [] ;;
  ret (map (fun s => base_dt + s) (sort_Z chosen)).

(** [draw_total_attempts_planned] *)
Definition draw_total_attempts_planned : M Z :=
  weights <- lift GLOBAL_ATTEMPT_WEIGHTS ;;
  n <- weighted_choice_key weights ;;
  ret (Z.min n MAX_GLOBAL_ATTEMPTS).

(** Lines 344-378 of [run]: the attempt itself with the method [m]
    chosen for it. *)
Definition attempt_with (o : order_info) (t : Z) (m : string) (st : loop_state)
  : M (ctl * loop_state) :=
  let counts := incr_count (ls_counts st) m in
  let attempt_no := ls_attempt_no st + 1 in
  c <- cfg_get m ;;
  u <- random ;;
  let is_success := Qltb u (cfg_success_rate c) in
  match lookup String.eqb m method_id_by_code with
  | None =>
      (* método desconhecido na BD -> ignora tentativa *)
      ret (Continue, Build_loop_state (ls_paid st) attempt_no (ls_current st) counts (ls_rows st))
  | Some method_id =>
      if is_success then
        sid <- status_get "paid" ;;
        ret (Break, Build_loop_state true attempt_no (ls_current st) counts
                      (ls_rows st ++ [Build_row (order_id o) attempt_no t (order_total o) method_id sid]))
      else
        sid <- status_get "failed" ;;
        ret (Continue, Build_loop_state (ls_paid st) attempt_no (ls_current st) counts
                         (ls_rows st ++ [Build_row (order_id o) attempt_no t 0%Q method_id sid]))
  end.

(** Lines 325-378 of [run]: one iteration of [for t in attempt_times]
    (after the [if paid: break] test). *)
Definition attempt_body (o : order_info) (t : Z) (st : loop_state) : M (ctl * loop_state) :=
  method <- (if ls_attempt_no st =? 0 then ret (ls_current st)
             else pick_next_method (ls_current st) (ls_counts st)) ;;
  let st1 := with_current st method in
  c <- cfg_get method ;;
  if cap_of c <=? ls_counts st method then
    match list_remove method (available_methods_by_cap (ls_counts st)) with
    | [] => ret (Break, st1)   (* sem alternativas dentro do cap *)
    | alt_avail =>
        alt_weights <- weights_for alt_avail ;;
        m' <- weighted_choice_key alt_weights ;;
        attempt_with o t m' (with_current st m')
    end
  else attempt_with o t method st1.

(** [for t in attempt_times: if paid: break; ...] *)
Fixpoint attempt_loop (o : order_info) (ts : list Z) (st : loop_state) : M loop_state :=
  match ts with
  | [] => ret st
  | t :: ts' =>
      if ls_paid st then ret st else
      '(c, st') <- attempt_body o t st ;;
      match c with
      | Break => ret st'
      | Continue => attempt_loop o ts' st'
      end
  end.

(** [attempt_times[-1] + 1s if attempt_times else order.order_date + 1s] *)
Definition forced_date (o : order_info) (attempt_times : list Z) : Z :=
  match rev attempt_times with
  | t_last :: _ => t_last + 1
  | [] => order_date o + 1
  end.

(** Lines 380-406 of [run]: forced resolution of a non-cancelled order
    left unpaid. *)
Definition finalize (o : order_info) (attempt_times : list Z) (st : loop_state) : M (list row) :=
  if ls_paid st then ret (ls_rows st) else
  if negb (order_status o =? CANCELLED_STATUS) then
    let t_force := forced_date o attempt_times in
    method_id <- (match lookup String.eqb (ls_current st) method_id_by_code with
                  | Some i => ret i
                  | None => match method_id_by_code with
                            | (_, i) :: _ => ret i
                            | [] => raise StopIteration
                            end
                  end) ;;
    let attempt_no := ls_attempt_no st + 1 in
    sid <- status_get "paid" ;;
    ret (ls_rows st ++ [Build_row (order_id o) attempt_no t_force (order_total o) method_id sid])
  else ret (ls_rows st).

Definition init_state (current : string) : loop_state :=
  Build_loop_state false 0 current (fun _ => 0) [].

(** The body of [for order in orders] in [run]: the rows appended for
    one order. *)
Definition simulate_order (o : order_info) : M (list row) :=
  planned_attempts <- draw_total_attempts_planned ;;
  attempt_times <- sorted_attempt_times (order_date o) planned_attempts ;;
  current_method <- weighted_choice_key build_method_weights ;;
  st <- attempt_loop o attempt_times (init_state current_method) ;;
  finalize o attempt_times st.

(** All rows of [run], in order. *)
Fixpoint gen_rows (orders : list order_info) : M (list row) :=
  match orders with
  | [] => ret []
  | o :: os =>
      seg <- simulate_order o ;;
      rest <- gen_rows os ;;
      ret (seg ++ rest)
  end.
End Payments.

(* ------------------------------------------------------------------ *)
(** ** Batch insertion ([insert_payments_in_batches]) *)

(** The [for rec in rows] loop: the chunks passed to [executemany] so
    far, the buffer, and the counters [total] and [batches]. *)
Fixpoint batch_loop (batch_size : Z) (rows : list row) (flushed : list (list row))
  (buf : list row) (total batches : Z) : list (list row) * list row * Z * Z :=
  match rows with
  | [] => (flushed, buf, total, batches)
  | rec :: rows' =>
      let buf' := buf ++ [rec] in
      if negb (batch_size =? 0) && (batch_size <=? Z.of_nat (length buf')) then
        batch_loop batch_size rows' (flushed ++ [buf']) []
          (total + Z.of_nat (length buf')) (batches + 1)
      else batch_loop batch_size rows' flushed buf' total batches
  end.

(** [insert_payments_in_batches]: the chunks handed to storage, in call
    order, and the returned [(total, num_batches)]. *)
Definition insert_payments_in_batches (rows : list row) (batch_size : Z)
  : list (list row) * (Z * Z) :=
  match rows with
  | [] => ([], (0, 0))
  | _ =>
      let '(flushed, buf, total, batches) := batch_loop batch_size rows [] [] 0 0 in
      match buf with
      | [] => (flushed, (total, batches))
      | _ => (flushed ++ [buf], (total + Z.of_nat (length buf), batches + 1))
      end
  end.

(** What [run] hands to storage: the generated rows in batches. *)
Definition run_payments {R} `{PyRandom R} (config : list (string * method_cfg))
  (method_id_by_code status_id_by_code : list (string * Z)) (fuel : nat)
  (orders : list order_info) : M (list (list row) * (Z * Z)) :=
  rows <- gen_rows config method_id_by_code status_id_by_code fuel orders ;;
  ret (insert_payments_in_batches rows BATCH_SIZE).

(* ------------------------------------------------------------------ *)
(** ** [sample_unique_products_weighted] of [insert_order_items.py] *)

(** [l[i] = x] *)
Fixpoint list_set {A} (l : list A) (i : nat) (x : A) : list A :=
  match l, i with
  | [], _ => []
  | _ :: l', O => x :: l'
  | y :: l', S i' => y :: list_set l' i' x
  end.

(** [float(weights_map.get(pid, 1.0))] *)
Definition product_weight (weights_map : list (Z * Q)) (pid : Z) : Q :=
  match lookup Z.eqb pid weights_map with Some w => w | None => 1%Q end.

Section Sample.
Context {R : Type} `{PyRandom R}.
Local Abbreviation M := (@M R).

(** [l[i], l[j] = l[j], l[i]] *)
Definition swap {A} (l : list A) (i j : nat) : M (list A) :=
  match nth_error l j, nth_error l i with
  | Some xj, Some xi => ret (list_set (list_set l i xj) j xi)
  | _, _ => raise IndexError
  end.

(** The [for _ in range(k)] loop. *)
Fixpoint sample_loop (n : nat) (pool : list Z) (weights : list Q) (chosen : list Z)
  : M (list Z) :=
  match n with
  | O => ret chosen
  | S n' =>
      idx <- py_choices (seq 0 (length pool)) weights ;;
      match nth_error pool idx with
      | None => raise IndexError
      | Some pid =>
          let chosen' := chosen ++ [pid] in
          let last_index := (length pool - 1)%nat in
          pool1 <- swap pool idx last_index ;;
          weights1 <- swap weights idx last_index ;;
          let pool' := removelast pool1 in
          let weights' := removelast weights1 in
          match weights' with
          | _ :: _ =>
              if Qle_bool (py_sum weights') 0 then ret chosen'
              else sample_loop n' pool' weights' chosen'
          | [] => sample_loop n' pool' weights' chosen'
          end
      end
  end.

(** [sample_unique_products_weighted] *)
Definition sample_unique_products_weighted (candidate_ids : list Z)
  (weights_map : list (Z * Q)) (k : Z) : M (list Z) :=
  if (k <=? 0) || (match candidate_ids with [] => true | _ => false end) then ret [] else
  let pool := candidate_ids in
  let weights := map (product_weight weights_map) pool in
  let k' := Z.min k (Z.of_nat (length pool)) in
  sample_loop (Z.to_nat k') pool weights [].
End Sample.

(* ------------------------------------------------------------------ *)
(** ** A scripted generator, for concrete runs *)

(** Replays given [random()] and [_randbelow] results ([0] once a list
    runs out). *)
Record scripted := { sc_floats : list Q; sc_ints : list Z }.

#[export] Instance scripted_random : PyRandom scripted := {
  rng_random := fun r =>
    match sc_floats r with
    | u :: us => (u, Build_scripted us (sc_ints r))
    | [] => (0%Q, r)
    end;
  rng_randbelow := fun r n =>
    match sc_ints r with
    | z :: zs => (Z.modulo z n, Build_scripted (sc_floats r) zs)
    | [] => (0, r)
    end
}.

(* ------------------------------------------------------------------ *)
(** ** Dict building of the fetchers *)

(** [d[k] = v] on a dict kept as an association list: an existing key
    keeps its place and gets the new value, a new key goes at the end. *)
Fixpoint dict_set {K V} (eqb : K -> K -> bool) (k : K) (v : V) (d : list (K * V))
  : list (K * V) :=
  match d with
  | [] => [(k, v)]
  | (k', v') :: d' => if eqb k k' then (k, v) :: d' else (k', v') :: dict_set eqb k v d'
  end.

(** [{f(x)[0]: f(x)[1] for x in xs}] *)
Definition dict_comp {A K V} (eqb : K -> K -> bool) (f : A -> K * V) (xs : list A)
  : list (K * V) :=
  fold_left (fun d x => let '(k, v) := f x in dict_set eqb k v d) xs [].

(** [fetch_payment_methods] of [insert_payments.py], on the rows
    [(payment_method_id, code)] of its query; [None] is the
    [RuntimeError] raised on an empty table.  Returns
    [(id_to_code, code_to_id)]. *)
Definition fetch_payment_methods (rows : list (Z * string))
  : option (list (Z * string) * list (string * Z)) :=
  match rows with
  | [] => None
  | _ =>
      let id_to_code := dict_comp Z.eqb (fun '(i, c) => (i, c)) rows in
      let code_to_id := dict_comp String.eqb (fun '(i, c) => (c, i)) id_to_code in
      Some (id_to_code, code_to_id)
  end.

(** [fetch_payment_statuses]: the same, with the codes passed through
    [str.lower] (the parameter [lower]) in [code_to_id]. *)
Definition fetch_payment_statuses (lower : string -> string) (rows : list (Z * string))
  : option (list (Z * string) * list (string * Z)) :=
  match rows with
  | [] => None
  | _ =>
      let id_to_code := dict_comp Z.eqb (fun '(i, c) => (i, c)) rows in
      let code_to_id := dict_comp String.eqb (fun '(i, c) => (lower c, i)) id_to_code in
      Some (id_to_code, code_to_id)
  end.

(* ------------------------------------------------------------------ *)
(** ** Generation of order items ([insert_order_items.py]) *)

(** [Product] *)
Record product := {
  p_product_id : Z;
  p_price : Q;
  p_category_id : Z
}.

(** An [order_items] row: [(order_id, product_id, quantity, unit_price)]. *)
Record item := {
  it_order_id : Z;
  it_product_id : Z;
  it_quantity : Z;
  it_unit_price : Q
}.

(** [fetch_products] of [insert_order_items.py], on the rows
    [(product_id, price, category_id, name)] of its query; [None] is the
    [RuntimeError] raised on an empty result.  Returns
    [(products, category_names)]. *)
Definition fetch_products (rows : list (Z * Q * Z * string))
  : option (list (Z * product) * list (Z * string)) :=
  match rows with
  | [] => None
  | _ =>
      Some (fold_left (fun '(products, category_names) '(pid, price, cat_id, cat_name) =>
              (dict_set Z.eqb pid (Build_product pid price cat_id) products,
               dict_set Z.eqb cat_id cat_name category_names)) rows ([], []))
  end.

Definition CART_SIZE_DIST : list (Z * Q) :=
  [(1, (40#1)%Q); (2, (30#1)%Q); (3, (15#1)%Q); (4, (10#1)%Q); (5, (4#1)%Q); (6, (1#1)%Q)].
Definition CART_SIZE_WEIGHTS : result (list (Z * Q)) := normalize_distribution CART_SIZE_DIST.

Definition QTY_DIST : list (Z * Q) :=
  [(1, (75#1)%Q); (2, (18#1)%Q); (3, (5#1)%Q); (4, (2#1)%Q)].
Definition QTY_WEIGHTS : result (list (Z * Q)) := normalize_distribution QTY_DIST.

Definition CATEGORY_WEIGHTS : list (string * Q) :=
  [("Electronics", 125#100); ("Fashion", 110#100); ("Home & Kitchen", 140#100);
   ("Beauty & Personal Care", 120#100); ("Sports & Fitness", 100#100); ("Books", 90#100);
   ("Toys", 95#100); ("Gardening", 80#100); ("Automotive", 105#100);
   ("Pet Supplies", 110#100)]%string%Q.

(** [product_weights]: [CATEGORY_WEIGHTS.get(category_names.get(cat_id),
    default_weight)] for each product, in the order of [products]; a
    missing category name ([None]) is not a key of [CATEGORY_WEIGHTS]. *)
Definition product_weights (products : list (Z * product)) (category_names : list (Z * string))
  (default_weight : Q) : list (Z * Q) :=
  fold_left (fun weights p =>
    let w := match lookup Z.eqb (p_category_id p) category_names with
             | Some cat_name =>
                 match lookup String.eqb cat_name CATEGORY_WEIGHTS with
                 | Some w => w
                 | None => default_weight
                 end
             | None => default_weight
             end in
    dict_set Z.eqb (p_product_id p) w weights) (map snd products) [].

Section Items.
Context {R : Type} `{PyRandom R}.
Local Abbreviation M := (@M R).

(** [choose_weighted_key] *)
Definition choose_weighted_key (weights : list (Z * Q)) : M Z :=
  match weights with
  | [] => raise ValueError
  | _ => py_choices (map fst weights) (map snd weights)
  end.

(** [for pid in chosen_products]: quantity drawn, then the price of
    [products[pid]]. *)
Fixpoint items_for (order_id : Z) (products : list (Z * product)) (pids : list Z)
  : M (list item) :=
  match pids with
  | [] => ret []
  | pid :: pids' =>
      qw <- lift QTY_WEIGHTS ;;
      q <- choose_weighted_key qw ;;
      let qty := Z.max 1 q in
      price <- (match lookup Z.eqb pid products with
                | Some p => ret (p_price p)
                | None => raise KeyError
                end) ;;
      rest <- items_for order_id products pids' ;;
      ret (Build_item order_id pid qty price :: rest)
  end.

(** [for order_id in order_ids]: the rows appended to [buffer], in order. *)
Fixpoint gen_items (products : list (Z * product)) (product_ids : list Z)
  (weights_map : list (Z * Q)) (order_ids : list Z) : M (list item) :=
  match order_ids with
  | [] => ret []
  | oid :: oids =>
      cw <- lift CART_SIZE_WEIGHTS ;;
      cart_size <- choose_weighted_key cw ;;
      chosen <- sample_unique_products_weighted product_ids weights_map cart_size ;;
      items <- items_for oid products chosen ;;
      rest <- gen_items products product_ids weights_map oids ;;
      ret (items ++ rest)
  end.

(** The generation part of [run]: weights with [default_weight = 1.0],
    [product_ids = list(products.keys())]. *)
Definition run_order_items (products : list (Z * product)) (category_names : list (Z * string))
  (order_ids : list Z) : M (list item) :=
  let weights_map := product_weights products category_names 1%Q in
  let product_ids := map fst products in
  gen_items products product_ids weights_map order_ids.
End Items.

(** ** Batch insertion of [insert_order_items.py]
    ([insert_items_in_batches]) *)

(** The [for rec in rows] loop: the chunks passed to [executemany] so
    far, the buffer, and the counters [total] and [batches]. *)
Fixpoint items_batch_loop (batch_size : Z) (rows : list item) (flushed : list (list item))
  (buf : list item) (total batches : Z) : list (list item) * list item * Z * Z :=
  match rows with
  | [] => (flushed, buf, total, batches)
  | rec :: rows' =>
      let buf' := buf ++ [rec] in
      if negb (batch_size =? 0) && (batch_size <=? Z.of_nat (length buf')) then
        items_batch_loop batch_size rows' (flushed ++ [buf']) []
          (total + Z.of_nat (length buf')) (batches + 1)
      else items_batch_loop batch_size rows' flushed buf' total batches
  end.

(** [insert_items_in_batches]: the chunks handed to storage, in call
    order, and the returned [(total, num_batches)]. *)
Definition insert_items_in_batches (rows : list item) (batch_size : Z)
  : list (list item) * (Z * Z) :=
  match rows with
  | [] => ([], (0, 0))
  | _ =>
      let '(flushed, buf, total, batches) := items_batch_loop batch_size rows [] [] 0 0 in
      match buf with
      | [] => (flushed, (total, batches))
      | _ => (flushed ++ [buf], (total + Z.of_nat (length buf), batches + 1))
      end
  end.

(* ------------------------------------------------------------------ *)
(** ** Predicates used in the statements *)

(** The contract of [random.Random._randbelow(n)]: a draw in [[0, n)]
    for [n > 0]. *)
Definition randbelow_in_range (R : Type) `{PyRandom R} : Prop :=
  forall (r : R) (n : Z), 0 < n -> 0 <= fst (rng_randbelow r n) < n.

(** The conditions under which the spec says a distribution is invalid. *)
Definition invalid_distribution {K} (dist : list (K * Q)) : Prop :=
  dist = [] \/ Exists (fun kv => (snd kv < 0)%Q) dist \/ (py_sum (map snd dist) <= 0)%Q.

(** The rows of [rows] that belong to the order [id]. *)
Definition rows_of_order (id : Z) (rows : list row) : list row :=
  filter (fun x => r_order_id x =? id) rows.

(** How many of [rows] carry the payment status [sid]. *)
Definition count_status (sid : Z) (rows : list row) : nat :=
  length (filter (fun x => r_payment_status_id x =? sid) rows).

(** A row with the ['failed'] status (and amount [0.00]). *)
Definition failed_row (status_id_by_code : list (string * Z)) (x : row) : Prop :=
  lookup String.eqb "failed"%string status_id_by_code = Some (r_payment_status_id x) /\
  r_amount_paid x = 0%Q.

(** A row with the ['paid'] status for the full order total. *)
Definition paid_row (status_id_by_code : list (string * Z)) (o : order_info) (x : row) : Prop :=
  lookup String.eqb "paid"%string status_id_by_code = Some (r_payment_status_id x) /\
  r_amount_paid x = order_total o.

Fixpoint strictly_increasing (l : list Z) : Prop :=
  match l with
  | x :: ((y :: _) as l') => x < y /\ strictly_increasing l'
  | _ => True
  end.

(** The ids a row carries: a method id of the table, the id of
    ['paid'] or of ['failed']. *)
Definition row_ids_ok (method_id_by_code status_id_by_code : list (string * Z)) (x : row) : Prop :=
  In (r_payment_method_id x) (map snd method_id_by_code) /\
  (lookup String.eqb "paid"%string status_id_by_code = Some (r_payment_status_id x) \/
   lookup String.eqb "failed"%string status_id_by_code = Some (r_payment_status_id x)).

(** Every configured method has been used at most its cap. *)
Definition counts_within_caps (config : list (string * method_cfg)) (counts : string -> Z) : Prop :=
  forall m c, lookup String.eqb m config = Some c -> counts m <= cap_of c.

(** The rows of the loop so far: all of order [o]; failed ones while
    unpaid; failed ones and one last paid one once paid. *)
Definition rows_shape (status_id_by_code : list (string * Z)) (o : order_info)
  (st : loop_state) : Prop :=
  Forall (fun x => r_order_id x = order_id o) (ls_rows st) /\
  (ls_paid st = false -> Forall (failed_row status_id_by_code) (ls_rows st)) /\
  (ls_paid st = true -> exists pre x, ls_rows st = pre ++ [x] /\
     Forall (failed_row status_id_by_code) pre /\ paid_row status_id_by_code o x).

(** Every configured method has an id in [method_id_by_code]. *)
Definition all_methods_known (config : list (string * method_cfg))
  (method_id_by_code : list (string * Z)) : Prop :=
  forall m, In m (map fst config) -> lookup String.eqb m method_id_by_code <> None.

(** Attempt numbers of the rows so far. *)
Definition rows_numbered (config : list (string * method_cfg))
  (method_id_by_code : list (string * Z)) (st : loop_state) : Prop :=
  0 <= ls_attempt_no st /\
  Forall (fun x => 1 <= r_attempt_no x <= ls_attempt_no st) (ls_rows st) /\
  strictly_increasing (map r_attempt_no (ls_rows st)) /\
  (all_methods_known config method_id_by_code ->
   map r_attempt_no (ls_rows st) = map Z.of_nat (seq 1 (Z.to_nat (ls_attempt_no st)))).

(** ** Concrete inputs *)

(** [status_id_by_code] of a [payment_status] table with
    [(1, 'paid'), (2, 'failed')]. *)
Definition example_status_ids : list (string * Z) :=
  [("paid"%string, 1); ("failed"%string, 2)].

(** A configuration with the single method ["card"]: weight 1,
    [max_attempts] 1 and the given success rate. *)
Definition card_only_config (success_rate : Q) : list (string * method_cfg) :=
  [("card"%string, Build_method_cfg (Some 1%Q) (Some 1) None (Some success_rate))].

(** An order with total 100.00, not cancelled (status 4), and a
    cancelled one. *)
Definition delivered_order : order_info := Build_order_info 7 1000 4 (100#1).
Definition cancelled_order : order_info := Build_order_info 8 1000 CANCELLED_STATUS (100#1).

(** [method_id_by_code] of a [payment_methods] table holding all four
    configured methods. *)
Definition all_method_ids : list (string * Z) :=
  [("card"%string, 1); ("paypal"%string, 2); ("mbway"%string, 3); ("bank_transfer"%string, 4)].

(* ================================================================== *)
(** * Proofs *)

(** ** Arithmetic of the helpers *)

Lemma Qltb_iff (x y : Q) : Qltb x y = true <-> (x < y)%Q.
Proof.
  unfold Qltb. rewrite negb_true_iff. split.
  - intro E. apply Qnot_le_lt. intro Hle. apply Qle_bool_iff in Hle. congruence.
  - intro Hlt. destruct (Qle_bool y x) eqn:E; [|reflexivity].
    apply Qle_bool_iff in E. exfalso. apply (Qlt_not_le _ _ Hlt E).
Qed.

Lemma existsb_neg_Exists {K} (dist : list (K * Q)) :
  existsb (fun v => Qltb v 0) (map snd dist) = true <-> Exists (fun kv => (snd kv < 0)%Q) dist.
Proof.
  induction dist as [|[k v] d IH]; simpl.
  - split; [discriminate | intro E; inversion E].
  - rewrite orb_true_iff, IH, Qltb_iff. split.
    + intros [E|E]; [now constructor | now apply Exists_cons_tl].
    + intro E. inversion E; subst; auto.
Qed.

Lemma accumulate_from_length acc xs : length (accumulate_from acc xs) = length xs.
Proof. revert acc; induction xs; simpl; auto. Qed.

Lemma accumulate_length xs : length (accumulate xs) = length xs.
Proof. destruct xs; simpl; auto using accumulate_from_length. Qed.

Lemma last_cons_default {A} (a d : A) l : last (a :: l) d = last l a.
Proof.
  revert a d; induction l as [|b l IH]; intros a d; [reflexivity|].
  change (last (a :: b :: l) d) with (last (b :: l) d).
  rewrite (IH b d), (IH b a). reflexivity.
Qed.

Lemma accumulate_from_last acc xs :
  (last (accumulate_from acc xs) acc == fold_left Qplus xs acc)%Q.
Proof.
  revert acc; induction xs as [|x xs IH]; intro acc.
  - reflexivity.
  - change (accumulate_from acc (x :: xs)) with ((acc + x)%Q :: accumulate_from (acc + x) xs).
    rewrite last_cons_default. apply IH.
Qed.

Lemma fold_left_Qplus_init xs a b :
  (a == b)%Q -> (fold_left Qplus xs a == fold_left Qplus xs b)%Q.
Proof.
  revert a b; induction xs; simpl; intros a' b' E; auto.
  apply IHxs. now rewrite E.
Qed.

Lemma rev_last {A} (l : list A) (d : A) :
  l <> [] -> exists tl, rev l = last l d :: tl.
Proof.
  intro Hne. exists (rev (removelast l)).
  rewrite <- rev_unit. f_equal. now apply app_removelast_last.
Qed.

(** The total [cum_weights[-1]] of [choices] is [sum(weights)]. *)
Lemma accumulate_total xs :
  xs <> [] -> exists tl last_cum,
    rev (accumulate xs) = last_cum :: tl /\ (last_cum == py_sum xs)%Q.
Proof.
  intro Hne. destruct xs as [|x xs]; [congruence|].
  destruct (rev_last (accumulate (x :: xs)) 0%Q) as [tl Htl]; [simpl; discriminate|].
  exists tl, (last (accumulate (x :: xs)) 0%Q). split; [exact Htl|].
  unfold py_sum. change (accumulate (x :: xs)) with (x :: accumulate_from x xs).
  rewrite last_cons_default, accumulate_from_last. simpl.
  apply fold_left_Qplus_init. ring.
Qed.

Lemma bisect_right_fuel_bounds f a x lo hi :
  (lo <= hi)%nat -> (lo <= bisect_right_fuel f a x lo hi <= hi)%nat.
Proof.
  revert lo hi; induction f as [|f IH]; intros lo hi Hle; cbn [bisect_right_fuel]; [lia|].
  destruct (Nat.ltb_spec lo hi); [|lia].
  assert (Hmid : (lo <= Nat.div (lo + hi) 2 < hi)%nat).
  { pose proof (Nat.div_mod_eq (lo + hi) 2).
    pose proof (Nat.mod_upper_bound (lo + hi) 2 ltac:(lia)). lia. }
  destruct (Qltb x (nth (Nat.div (lo + hi) 2) a 0%Q)).
  - specialize (IH lo (Nat.div (lo + hi) 2) ltac:(lia)). lia.
  - specialize (IH (S (Nat.div (lo + hi) 2)) hi ltac:(lia)). lia.
Qed.

(** [choices] draws an element of the population, and fails exactly when
    the weights do not match the population or their total is not
    positive. *)
Lemma py_choices_spec {R} `{PyRandom R} {A} (pop : list A) (ws : list Q) (r : R) :
  length ws = length pop -> pop <> [] ->
  match py_choices pop ws r with
  | Err e => e = ValueError /\ (py_sum ws <= 0)%Q
  | Ok (x, _) => (0 < py_sum ws)%Q /\ In x pop
  end.
Proof.
  intros Hlen Hne. unfold py_choices.
  rewrite accumulate_length, Hlen, Nat.eqb_refl.
  assert (Hws : ws <> []) by (destruct ws, pop; simpl in *; congruence).
  destruct (accumulate_total ws Hws) as (tl & lc & Hrev & Hlc). rewrite Hrev.
  unfold bind, random, ret, raise. change (negb true) with false. cbv iota beta.
  destruct (Qle_bool (lc + 0) 0) eqn:Hb.
  - apply Qle_bool_iff in Hb. split; [reflexivity|]. rewrite <- Hlc.
    now rewrite Qplus_0_r in Hb.
  - destruct (rng_random r) as [u r'].
    assert (Hpos : (0 < py_sum ws)%Q).
    { apply Qnot_le_lt. intro Hle. rewrite <- Hlc in Hle.
      assert (Qle_bool (lc + 0) 0 = true) by (apply Qle_bool_iff; now rewrite Qplus_0_r).
      congruence. }
    pose proof (bisect_right_fuel_bounds (length (accumulate ws)) (accumulate ws)
                  (u * (lc + 0))%Q 0 (length pop - 1) ltac:(lia)) as Hb2.
    unfold bisect_right.
    set (i := bisect_right_fuel (length (accumulate ws)) (accumulate ws)
                (u * (lc + 0))%Q 0 (length pop - 1)) in *.
    destruct (nth_error pop i) as [x|] eqn:Hn.
    + split; [exact Hpos|]. eapply nth_error_In; eauto.
    + apply nth_error_None in Hn. destruct pop; [congruence|]. simpl in *; lia.
Qed.

(** ** Distribution engine *)

(** C6: [normalize_distribution] raises [ValueError] exactly when the
    mapping is empty, has a negative weight or a total [<= 0]; otherwise
    it maps each key to its weight over the total.  On [{A:0, B:0}] and
    [{A:-1, B:2}] it raises, on [{A:1, B:3}] it returns [{A:0.25, B:0.75}]. *)
Theorem normalize_distribution_spec :
  (forall K (dist : list (K * Q)),
    match normalize_distribution dist with
    | Err e => e = ValueError /\ invalid_distribution dist
    | Ok res => ~ invalid_distribution dist /\
                res = map (fun '(k, v) => (k, v / py_sum (map snd dist))%Q) dist
    end) /\
  normalize_distribution [("A"%string, 0%Q); ("B"%string, 0%Q)] = Err ValueError /\
  normalize_distribution [("A"%string, (-1)%Q); ("B"%string, 2%Q)] = Err ValueError /\
  normalize_distribution [("A"%string, 1%Q); ("B"%string, 3%Q)]
    = Ok [("A"%string, 1#4); ("B"%string, 3#4)]%Q.
Proof.
  split; [|repeat split; vm_compute; reflexivity].
  intros K dist. unfold normalize_distribution, invalid_distribution.
  destruct dist as [|kv d]; [split; auto|].
  set (dist := kv :: d).
  destruct (existsb (fun v => Qltb v 0) (map snd dist)) eqn:Hneg.
  - apply existsb_neg_Exists in Hneg. auto.
  - destruct (Qle_bool (py_sum (map snd dist)) 0) eqn:Htot.
    + apply Qle_bool_iff in Htot. auto.
    + split; [|reflexivity].
      intros [E|[E|E]]; [discriminate| |].
      * apply existsb_neg_Exists in E. congruence.
      * apply Qle_bool_iff in E. congruence.
Qed.

(** C7 (amended): [weighted_choice_key] raises [ValueError] exactly when
    the mapping is empty or its total weight is [<= 0]; negative weights
    alone do not make it fail; whenever it returns, the result is one of
    the mapping's keys. *)
Theorem weighted_choice_key_spec {R} `{PyRandom R} {K} (weights : list (K * Q)) (r : R) :
  match weighted_choice_key weights r with
  | Err e => e = ValueError /\ (weights = [] \/ (py_sum (map snd weights) <= 0)%Q)
  | Ok (k, _) => weights <> [] /\ (0 < py_sum (map snd weights))%Q /\ In k (map fst weights)
  end.
Proof.
  unfold weighted_choice_key. destruct weights as [|kv d] eqn:Hw.
  - simpl. auto.
  - rewrite <- Hw.
    pose proof (py_choices_spec (map fst weights) (map snd weights) r) as Hc.
    rewrite !length_map in Hc. specialize (Hc eq_refl).
    assert (Hne : map fst weights <> []) by (subst; discriminate).
    specialize (Hc Hne).
    destruct (py_choices (map fst weights) (map snd weights) r) as [[k r']|e].
    + destruct Hc. repeat split; auto. subst; discriminate.
    + destruct Hc. auto.
Qed.

(** C7 counterexample: on [{A:-1, B:2}] (a negative weight) the draw
    does not raise, it returns [B]. *)
Lemma weighted_choice_key_negative_weight :
  weighted_choice_key [("A"%string, (-1)%Q); ("B"%string, 2%Q)]
    (Build_scripted [1#2]%Q []) = Ok ("B"%string, Build_scripted [] []).
Proof. vm_compute. reflexivity. Qed.

(** ** Batch insertion *)

Lemma batch_loop_inv bs rows fl buf total batches :
  0 < bs -> Z.of_nat (length buf) < bs ->
  Forall (fun c => Z.of_nat (length c) = bs) fl ->
  total = Z.of_nat (length (concat fl)) -> batches = Z.of_nat (length fl) ->
  let '(fl', buf', total', batches') := batch_loop bs rows fl buf total batches in
  concat fl' ++ buf' = concat fl ++ buf ++ rows /\
  Forall (fun c => Z.of_nat (length c) = bs) fl' /\
  Z.of_nat (length buf') < bs /\
  total' = Z.of_nat (length (concat fl')) /\ batches' = Z.of_nat (length fl').
Proof.
  revert fl buf total batches.
  induction rows as [|x rows IH]; intros fl buf total batches Hbs Hbuf Hfl Ht Hb; simpl.
  - rewrite app_nil_r. auto.
  - rewrite length_app. simpl length.
    destruct (negb (bs =? 0) && (bs <=? Z.of_nat (length buf + 1))) eqn:E.
    + apply andb_true_iff in E as [_ E]. apply Z.leb_le in E.
      assert (Hfl' : Forall (fun c => Z.of_nat (length c) = bs) (fl ++ [buf ++ [x]])).
      { apply Forall_app. split; auto. constructor; [|constructor].
        rewrite length_app. simpl. lia. }
      assert (Ht' : total + Z.of_nat (length (buf ++ [x]))
                    = Z.of_nat (length (concat (fl ++ [buf ++ [x]])))).
      { rewrite concat_app, !length_app. simpl. rewrite !app_nil_r, !length_app. simpl. lia. }
      assert (Hb' : batches + 1 = Z.of_nat (length (fl ++ [buf ++ [x]]))).
      { rewrite length_app. simpl. lia. }
      specialize (IH (fl ++ [buf ++ [x]]) [] (total + Z.of_nat (length (buf ++ [x])))
                     (batches + 1) Hbs ltac:(simpl; lia) Hfl' Ht' Hb').
      rewrite length_app in IH. simpl length in IH.
      destruct (batch_loop bs rows (fl ++ [buf ++ [x]]) [] _ _) as [[[fl' buf'] t'] b'].
      destruct IH as (IH1 & IH2 & IH3 & IH4 & IH5).
      repeat split; auto. rewrite IH1, concat_app. simpl.
      rewrite app_nil_r, <- !app_assoc. reflexivity.
    + assert (Z.of_nat (length (buf ++ [x])) < bs).
      { rewrite length_app. simpl length.
        apply andb_false_iff in E as [E|E].
        - apply negb_false_iff, Z.eqb_eq in E. lia.
        - apply Z.leb_gt in E. lia. }
      specialize (IH fl (buf ++ [x]) total batches Hbs H Hfl Ht Hb).
      destruct (batch_loop bs rows fl (buf ++ [x]) total batches) as [[[fl' buf'] t'] b'].
      destruct IH as (IH1 & IH2 & IH3 & IH4 & IH5).
      repeat split; auto. rewrite IH1, <- app_assoc. reflexivity.
Qed.

(** C9: with a positive threshold, the chunks handed to storage
    concatenate to exactly the generated rows, in order; each chunk is
    non-empty and holds at most [batch_size] rows; the returned counters
    are the number of rows and of chunks; with threshold 3 and 7 rows the
    chunk sizes are [3; 3; 1]. *)
Theorem insert_payments_in_batches_spec (rows : list row) (batch_size : Z)
  (Hbs : 0 < batch_size) :
  let '(chunks, (total, batches)) := insert_payments_in_batches rows batch_size in
  concat chunks = rows /\
  Forall (fun c => c <> [] /\ Z.of_nat (length c) <= batch_size) chunks /\
  total = Z.of_nat (length rows) /\ batches = Z.of_nat (length chunks) /\
  (batch_size = 3 -> length rows = 7%nat -> map (@length row) chunks = [3; 3; 1]%nat).
Proof.
  destruct rows as [|r0 rs].
  - simpl. repeat split; auto. discriminate.
  - set (rows := r0 :: rs).
    assert (Heq : insert_payments_in_batches rows batch_size =
              let '(flushed, buf, total, batches) := batch_loop batch_size rows [] [] 0 0 in
              match buf with
              | [] => (flushed, (total, batches))
              | _ => (flushed ++ [buf], (total + Z.of_nat (length buf), batches + 1))
              end) by reflexivity.
    rewrite Heq. clearbody rows. clear Heq.
    pose proof (batch_loop_inv batch_size rows [] [] 0 0 Hbs ltac:(simpl; lia)
                  (Forall_nil _) eq_refl eq_refl) as Hinv.
    destruct (batch_loop batch_size rows [] [] 0 0) as [[[fl buf] t] b] eqn:Hl.
    destruct Hinv as (H1 & H2 & H3 & H4 & H5). simpl in H1.
    assert (Hch : Forall (fun c => c <> [] /\ Z.of_nat (length c) <= batch_size) fl).
    { refine (Forall_impl _ _ H2). intros c Hc. split; [|lia].
      intro E; subst c; simpl in Hc; lia. }
    assert (Hsizes : batch_size = 3 -> length rows = 7%nat -> map (@length row) fl
              ++ (match buf with [] => [] | _ => [length buf] end) = [3; 3; 1]%nat).
    { intros E3 E7. subst batch_size.
      do 8 (destruct rows as [|? rows]; simpl in E7; try discriminate).
      simpl in Hl. inversion Hl; subst. reflexivity. }
    destruct buf as [|x buf'].
    + rewrite app_nil_r in H1. repeat split; auto.
      * rewrite H4, H1. reflexivity.
      * intros E3 E7. specialize (Hsizes E3 E7). now rewrite app_nil_r in Hsizes.
    + repeat split.
      * rewrite concat_app. simpl. now rewrite app_nil_r.
      * apply Forall_app. split; auto. constructor; [|constructor].
        split; [discriminate | lia].
      * rewrite H4, <- H1, length_app. lia.
      * rewrite length_app, H5. simpl. lia.
      * intros E3 E7. rewrite map_app. exact (Hsizes E3 E7).
Qed.

Lemma insert_payments_in_batches_spec_witness :
  0 < 3 /\
  (let rows := map (fun i => Build_row 1 i i 0%Q 1 1) [1; 2; 3; 4; 5; 6; 7] in
   let '(chunks, (total, batches)) := insert_payments_in_batches rows 3 in
   concat chunks = rows /\
   Forall (fun c => c <> [] /\ Z.of_nat (length c) <= 3) chunks /\
   total = Z.of_nat (length rows) /\ batches = Z.of_nat (length chunks) /\
   (3 = 3 -> length rows = 7%nat -> map (@length row) chunks = [3; 3; 1]%nat)).
Proof.
  split; [lia|].
  exact (insert_payments_in_batches_spec
           (map (fun i => Build_row 1 i i 0%Q 1 1) [1; 2; 3; 4; 5; 6; 7]) 3 ltac:(lia)).
Defined.

(** ** Inversion lemmas for the generator monad *)

Section MonadFacts.
Context {R : Type} `{PyRandom R}.
Local Abbreviation M := (@M R).

Lemma bind_ok {A B} (m : M A) (k : A -> M B) r b r' :
  bind m k r = Ok (b, r') -> exists a r1, m r = Ok (a, r1) /\ k a r1 = Ok (b, r').
Proof.
  unfold bind. destruct (m r) as [[a r1]|e]; [eauto | discriminate].
Qed.

Lemma ret_ok {A} (a b : A) (r r' : R) : ret a r = Ok (b, r') -> a = b /\ r = r'.
Proof. unfold ret. intro E. now inversion E. Qed.

Lemma raise_ok {A} e (r : R) (b : A) r' : raise e r = Ok (b, r') -> False.
Proof. discriminate. Qed.

Lemma weighted_choice_key_in {K} (ws : list (K * Q)) (r : R) k r' :
  weighted_choice_key ws r = Ok (k, r') -> In k (map fst ws).
Proof.
  unfold weighted_choice_key. destruct ws as [|kv d] eqn:Hw; [discriminate|].
  rewrite <- Hw. intro E.
  pose proof (py_choices_spec (map fst ws) (map snd ws) r) as Hc.
  rewrite !length_map in Hc. specialize (Hc eq_refl ltac:(subst; discriminate)).
  rewrite E in Hc. tauto.
Qed.
End MonadFacts.

Ltac inv_bind H :=
  let a := fresh "a" in let r1 := fresh "r" in let H1 := fresh "Hm" in
  apply bind_ok in H; destruct H as (a & r1 & H1 & H).

Lemma lookup_In {K V} (eqb : K -> K -> bool) (eqb_spec : forall x y, eqb x y = true <-> x = y)
  k (d : list (K * V)) v : lookup eqb k d = Some v -> In (k, v) d.
Proof.
  induction d as [|[k' v'] d IH]; simpl; [discriminate|].
  destruct (eqb k k') eqn:E.
  - intro Hv; inversion Hv; subst. apply eqb_spec in E; subst. now left.
  - intro Hv. right. auto.
Qed.

Lemma lookup_NoDup {K V} (eqb : K -> K -> bool) (eqb_spec : forall x y, eqb x y = true <-> x = y)
  k (d : list (K * V)) v : NoDup (map fst d) -> In (k, v) d -> lookup eqb k d = Some v.
Proof.
  induction d as [|[k' v'] d IH]; simpl; [tauto|].
  intros Hnd Hin. inversion Hnd as [|? ? Hnin Hnd']; subst.
  destruct (eqb k k') eqn:E.
  - apply eqb_spec in E; subst. destruct Hin as [Hin|Hin]; [congruence|].
    exfalso. apply Hnin. change k' with (fst (k', v)). now apply in_map.
  - destruct Hin as [Hin|Hin].
    + inversion Hin; subst. exfalso. assert (k = k) by reflexivity.
      apply eqb_spec in H. congruence.
    + auto.
Qed.

Lemma list_remove_incl x l y : In y (list_remove x l) -> In y l.
Proof.
  induction l as [|z l IH]; simpl; [tauto|].
  destruct (String.eqb x z); simpl; tauto.
Qed.

(** ** One iteration of the attempt loop *)

Section LoopFacts.
Context {R : Type} `{PyRandom R}.
Variable config : list (string * method_cfg).
Variable method_id_by_code : list (string * Z).
Variable status_id_by_code : list (string * Z).
Variable o : order_info.

Local Abbreviation attempt_withC := (@attempt_with R _ config method_id_by_code status_id_by_code o).
Local Abbreviation attempt_bodyC := (@attempt_body R _ config method_id_by_code status_id_by_code o).
Local Abbreviation attempt_loopC := (@attempt_loop R _ config method_id_by_code status_id_by_code o).

Lemma cfg_get_ok m (r : R) c r' :
  cfg_get config m r = Ok (c, r') -> lookup String.eqb m config = Some c /\ r' = r.
Proof.
  unfold cfg_get. destruct (lookup String.eqb m config); [|discriminate].
  intro E; now inversion E.
Qed.

Lemma status_get_ok code (r : R) i r' :
  status_get status_id_by_code code r = Ok (i, r') ->
  lookup String.eqb code status_id_by_code = Some i /\ r' = r.
Proof.
  unfold status_get. destruct (lookup String.eqb code status_id_by_code); [|discriminate].
  intro E; now inversion E.
Qed.

Lemma weights_for_ok ms (r : R) ws r' :
  weights_for config ms r = Ok (ws, r') -> map fst ws = ms.
Proof.
  revert r ws r'; induction ms as [|m ms IH]; intros r ws r' E; simpl in E.
  - apply ret_ok in E as [E _]. now subst.
  - inv_bind E. inv_bind E. apply ret_ok in E as [E _]. subst. simpl.
    f_equal. eapply IH; eauto.
Qed.

Lemma attempt_with_ok t m st (r : R) c st' r' :
  attempt_withC t m st r = Ok ((c, st'), r') ->
  ls_current st' = ls_current st /\
  ls_counts st' = incr_count (ls_counts st) m /\
  ls_attempt_no st' = ls_attempt_no st + 1 /\
  ((lookup String.eqb m method_id_by_code = None /\ c = Continue /\
    ls_paid st' = ls_paid st /\ ls_rows st' = ls_rows st) \/
   (exists mid f, lookup String.eqb m method_id_by_code = Some mid /\
    lookup String.eqb "failed"%string status_id_by_code = Some f /\ c = Continue /\
    ls_paid st' = ls_paid st /\
    ls_rows st' = ls_rows st ++ [Build_row (order_id o) (ls_attempt_no st + 1) t 0%Q mid f]) \/
   (exists mid p, lookup String.eqb m method_id_by_code = Some mid /\
    lookup String.eqb "paid"%string status_id_by_code = Some p /\ c = Break /\
    ls_paid st' = true /\
    ls_rows st' = ls_rows st ++ [Build_row (order_id o) (ls_attempt_no st + 1) t (order_total o) mid p])).
Proof.
  unfold attempt_with. intro E.
  inv_bind E. inv_bind E. cbv beta zeta in E.
  destruct (lookup String.eqb m method_id_by_code) as [mid|] eqn:Hmid.
  - destruct (Qltb _ _).
    + inv_bind E. apply status_get_ok in Hm1 as [Hp _].
      apply ret_ok in E as [E _]. inversion E; subst. simpl.
      repeat split; auto. right; right. eauto 10.
    + inv_bind E. apply status_get_ok in Hm1 as [Hf _].
      apply ret_ok in E as [E _]. inversion E; subst. simpl.
      repeat split; auto. right; left. eauto 10.
  - apply ret_ok in E as [E _]. inversion E; subst. simpl. repeat split; auto.
Qed.

Lemma attempt_body_ok t st (r : R) c st' r' :
  attempt_bodyC t st r = Ok ((c, st'), r') ->
  (c = Break /\ ls_paid st' = ls_paid st /\ ls_attempt_no st' = ls_attempt_no st /\
   ls_counts st' = ls_counts st /\ ls_rows st' = ls_rows st) \/
  (exists m cfg r1, In (m, cfg) config /\ ls_counts st m < cap_of cfg /\
   attempt_withC t m (with_current st m) r1 = Ok ((c, st'), r')).
Proof.
  unfold attempt_body. intro E.
  inv_bind E. cbv beta zeta in E. inv_bind E.
  apply cfg_get_ok in Hm0 as [Hc ->].
  destruct (cap_of a0 <=? ls_counts st a) eqn:Hcap.
  - destruct (list_remove a (available_methods_by_cap config (ls_counts st))) as [|m0 rest] eqn:Hl.
    + apply ret_ok in E as [E _]. inversion E; subst. left. simpl. auto.
    + inv_bind E. inv_bind E.
      apply weights_for_ok in Hm0. apply weighted_choice_key_in in Hm1.
      rewrite Hm0, <- Hl in Hm1. apply list_remove_incl in Hm1.
      unfold available_methods_by_cap in Hm1. apply in_map_iff in Hm1 as [[m' cfg] [Hm' Hin]].
      apply filter_In in Hin as [Hin Hlt]. simpl in Hm'. subst m'.
      apply Z.ltb_lt in Hlt. right. exists a2, cfg, r2. auto.
  - right. exists a, a0. eexists. repeat split.
    + apply (lookup_In String.eqb); auto. apply String.eqb_eq.
    + apply Z.leb_gt in Hcap. exact Hcap.
    + exact E.
Qed.

(** Any property of the loop state kept by the iterations holds at the
    end of the loop. *)
Lemma attempt_loop_preserves (P : loop_state -> Prop) :
  (forall t st (r : R) c st' r', P st -> ls_paid st = false ->
     attempt_bodyC t st r = Ok ((c, st'), r') -> P st') ->
  forall ts st r st' r', P st -> attempt_loopC ts st r = Ok (st', r') -> P st'.
Proof.
  intros Hstep ts. induction ts as [|t ts IH]; intros st r st' r' HP E; simpl in E.
  - apply ret_ok in E as [E _]. now subst.
  - destruct (ls_paid st) eqn:Hpaid.
    + apply ret_ok in E as [E _]. now subst.
    + inv_bind E. destruct a as [c st1].
      pose proof (Hstep _ _ _ _ _ _ HP Hpaid Hm) as HP1.
      destruct c.
      * eapply IH; eauto.
      * apply ret_ok in E as [E _]. now subst.
Qed.
End LoopFacts.

Lemma strictly_increasing_snoc l x :
  strictly_increasing l -> Forall (fun y => y < x) l -> strictly_increasing (l ++ [x]).
Proof.
  induction l as [|a l IH]; simpl; [tauto|].
  intros Hinc Hlt. inversion Hlt as [|? ? Ha Hl]; subst.
  destruct l as [|b l]; simpl in *; [tauto|].
  destruct Hinc as [Hab Hinc]. split; [exact Hab|]. apply IH; auto.
Qed.

Lemma seq_snoc_Z n : 0 <= n ->
  map Z.of_nat (seq 1 (Z.to_nat (n + 1))) = map Z.of_nat (seq 1 (Z.to_nat n)) ++ [n + 1].
Proof.
  intro Hn. rewrite Z2Nat.inj_add by lia. simpl Z.to_nat.
  rewrite Nat.add_1_r, seq_S, map_app. simpl. f_equal. f_equal. lia.
Qed.

(** ** Invariants of one order's simulation *)

Section OrderFacts.
Context {R : Type} `{PyRandom R}.
Variable config : list (string * method_cfg).
Variable method_id_by_code : list (string * Z).
Variable status_id_by_code : list (string * Z).
Variable fuel : nat.
Variable o : order_info.

Local Abbreviation attempt_withC := (@attempt_with R _ config method_id_by_code status_id_by_code o).
Local Abbreviation attempt_bodyC := (@attempt_body R _ config method_id_by_code status_id_by_code o).
Local Abbreviation attempt_loopC := (@attempt_loop R _ config method_id_by_code status_id_by_code o).
Local Abbreviation finalizeC := (@finalize R method_id_by_code status_id_by_code o).

Lemma attempt_body_shape t st (r : R) c st' r' :
  rows_shape status_id_by_code o st -> ls_paid st = false ->
  attempt_bodyC t st r = Ok ((c, st'), r') -> rows_shape status_id_by_code o st'.
Proof.
  intros (Hid & Hf & _) Hpaid E. specialize (Hf Hpaid).
  apply attempt_body_ok in E as [(_ & Hp & _ & _ & Hr)|(m & cfg & r1 & _ & _ & E)].
  - unfold rows_shape. rewrite Hp, Hr, Hpaid. split; [exact Hid|]. split; [auto|discriminate].
  - apply attempt_with_ok in E as (_ & _ & _ & E). simpl in E.
    destruct E as [(_ & _ & Hp & Hr)|[(mid & f & _ & Hfl & _ & Hp & Hr)|(mid & p & _ & Hpd & _ & Hp & Hr)]];
      unfold rows_shape; rewrite Hp, Hr, ?Hpaid.
    + split; [exact Hid|]. split; [auto|discriminate].
    + split; [apply Forall_app; split; auto|].
      split; [|discriminate]. intros _. apply Forall_app. split; auto.
      constructor; [|constructor]. split; simpl; auto.
    + split; [apply Forall_app; split; auto|].
      split; [discriminate|]. intros _. do 2 eexists. split; [reflexivity|].
      split; auto. split; simpl; auto.
Qed.

Lemma attempt_body_numbered t st (r : R) c st' r' :
  rows_numbered config method_id_by_code st -> attempt_bodyC t st r = Ok ((c, st'), r') -> rows_numbered config method_id_by_code st'.
Proof.
  intros (Hn & Hb & Hinc & Hfull) E.
  apply attempt_body_ok in E as [(_ & _ & Ha & _ & Hr)|(m & cfg & r1 & Hin & _ & E)].
  - unfold rows_numbered. rewrite Ha, Hr. auto.
  - apply attempt_with_ok in E as (_ & _ & Ha & E). simpl in Ha, E.
    unfold rows_numbered. rewrite Ha.
    assert (Hb' : Forall (fun x => 1 <= r_attempt_no x <= ls_attempt_no st + 1) (ls_rows st)).
    { refine (Forall_impl _ _ Hb). intros x Hx. lia. }
    destruct E as [(Hnone & _ & _ & Hr)|[(mid & f & _ & _ & _ & _ & Hr)|(mid & p & _ & _ & _ & _ & Hr)]];
      rewrite Hr.
    + split; [lia|]. split; [exact Hb'|]. split; [exact Hinc|].
      intro Hk. exfalso. apply (Hk m); [|exact Hnone].
      change m with (fst (m, cfg)). now apply in_map.
    + split; [lia|]. split.
      * apply Forall_app. split; [exact Hb'|]. constructor; [simpl; lia|constructor].
      * split.
        -- rewrite map_app. apply strictly_increasing_snoc; [exact Hinc|].
           apply Forall_map. refine (Forall_impl _ _ Hb). intros x Hx. simpl. lia.
        -- intro Hk. rewrite map_app, (Hfull Hk), seq_snoc_Z by exact Hn. reflexivity.
    + split; [lia|]. split.
      * apply Forall_app. split; [exact Hb'|]. constructor; [simpl; lia|constructor].
      * split.
        -- rewrite map_app. apply strictly_increasing_snoc; [exact Hinc|].
           apply Forall_map. refine (Forall_impl _ _ Hb). intros x Hx. simpl. lia.
        -- intro Hk. rewrite map_app, (Hfull Hk), seq_snoc_Z by exact Hn. reflexivity.
Qed.

Lemma finalize_ok times st (r : R) rows r' :
  finalizeC times st r = Ok (rows, r') ->
  (ls_paid st = true /\ rows = ls_rows st) \/
  (ls_paid st = false /\ order_status o = CANCELLED_STATUS /\ rows = ls_rows st) \/
  (ls_paid st = false /\ order_status o <> CANCELLED_STATUS /\
   exists mid p, lookup String.eqb "paid"%string status_id_by_code = Some p /\
   rows = ls_rows st ++ [Build_row (order_id o) (ls_attempt_no st + 1)
                           (forced_date o times) (order_total o) mid p]).
Proof.
  unfold finalize. intro E.
  destruct (ls_paid st) eqn:Hpaid.
  - apply ret_ok in E as [E _]. auto.
  - destruct (order_status o =? CANCELLED_STATUS) eqn:Hc; simpl negb in E; cbv iota in E.
    + apply ret_ok in E as [E _]. apply Z.eqb_eq in Hc. auto.
    + apply Z.eqb_neq in Hc. inv_bind E. cbv zeta in E. inv_bind E.
      apply status_get_ok in Hm0 as [Hp _]. apply ret_ok in E as [E _].
      right; right. split; [reflexivity|]. split; [exact Hc|]. eauto.
Qed.

Lemma simulate_order_ok (r : R) rows r' :
  simulate_order config method_id_by_code status_id_by_code fuel o r = Ok (rows, r') ->
  Forall (fun x => r_order_id x = order_id o) rows /\
  (order_status o <> CANCELLED_STATUS -> exists pre x, rows = pre ++ [x] /\
     Forall (failed_row status_id_by_code) pre /\ paid_row status_id_by_code o x) /\
  (order_status o = CANCELLED_STATUS -> Forall (failed_row status_id_by_code) rows \/
     exists pre x, rows = pre ++ [x] /\
     Forall (failed_row status_id_by_code) pre /\ paid_row status_id_by_code o x) /\
  Forall (fun x => 1 <= r_attempt_no x) rows /\
  strictly_increasing (map r_attempt_no rows) /\
  (all_methods_known config method_id_by_code ->
   map r_attempt_no rows = map Z.of_nat (seq 1 (length rows))).
Proof.
  unfold simulate_order. intro E.
  inv_bind E. inv_bind E. inv_bind E. inv_bind E.
  rename a2 into st.
  assert (Hsh : rows_shape status_id_by_code o st).
  { refine (attempt_loop_preserves config method_id_by_code status_id_by_code o
              (rows_shape status_id_by_code o) _ _ _ _ _ _ _ Hm2).
    - intros. eapply attempt_body_shape; eauto.
    - unfold rows_shape; simpl. repeat split; [constructor | constructor | discriminate]. }
  assert (Hnum : rows_numbered config method_id_by_code st).
  { refine (attempt_loop_preserves config method_id_by_code status_id_by_code o
              (rows_numbered config method_id_by_code) _ _ _ _ _ _ _ Hm2).
    - intros. eapply attempt_body_numbered; eauto.
    - unfold rows_numbered; simpl. repeat split; [lia | constructor]. }
  destruct Hsh as (Hid & Hf & Hp). destruct Hnum as (Hn & Hb & Hinc & Hfull).
  assert (Hb1 : Forall (fun x => 1 <= r_attempt_no x) (ls_rows st)).
  { refine (Forall_impl _ _ Hb). intros x Hx. lia. }
  assert (Hlen : all_methods_known config method_id_by_code ->
                 length (ls_rows st) = Z.to_nat (ls_attempt_no st)).
  { intro Hk. specialize (Hfull Hk). apply (f_equal (@length Z)) in Hfull.
    now rewrite !length_map, length_seq in Hfull. }
  apply finalize_ok in E as [(Hpaid & ->)|[(Hpaid & Hc & ->)|(Hpaid & Hc & mid & p & Hpd & ->)]].
  - specialize (Hp Hpaid). repeat split; auto.
    intro Hk. rewrite (Hfull Hk), (Hlen Hk). reflexivity.
  - specialize (Hf Hpaid). repeat split; auto; try (intro Hc'; contradiction).
    intro Hk. rewrite (Hfull Hk), (Hlen Hk). reflexivity.
  - specialize (Hf Hpaid). split; [|split; [|split; [|split; [|split]]]].
    + apply Forall_app. split; [exact Hid|]. constructor; [reflexivity|constructor].
    + intros _. do 2 eexists. split; [reflexivity|]. split; [exact Hf|]. split; auto.
    + intro Hc'. contradiction.
    + apply Forall_app. split; [exact Hb1|]. constructor; [simpl; lia|constructor].
    + rewrite map_app. apply strictly_increasing_snoc; [exact Hinc|].
      apply Forall_map. refine (Forall_impl _ _ Hb). intros x Hx. simpl. lia.
    + intro Hk. rewrite length_app, map_app, (Hfull Hk), (Hlen Hk). simpl.
      rewrite <- (seq_snoc_Z _ Hn). f_equal. f_equal. rewrite Z2Nat.inj_add by lia. simpl. lia.
Qed.
End OrderFacts.

(** ** From the whole run to one order *)

Section GenFacts.
Context {R : Type} `{PyRandom R}.
Variable config : list (string * method_cfg).
Variable method_id_by_code : list (string * Z).
Variable status_id_by_code : list (string * Z).
Variable fuel : nat.

Local Abbreviation gen_rowsC := (@gen_rows R _ config method_id_by_code status_id_by_code fuel).
Local Abbreviation simulate_orderC := (@simulate_order R _ config method_id_by_code status_id_by_code fuel).

Lemma gen_rows_ids orders (r : R) rows r' :
  gen_rowsC orders r = Ok (rows, r') ->
  Forall (fun x => In (r_order_id x) (map order_id orders)) rows.
Proof.
  revert r rows r'; induction orders as [|o os IH]; intros r rows r' E; simpl in E.
  - apply ret_ok in E as [<- _]. constructor.
  - inv_bind E. inv_bind E. apply ret_ok in E as [<- _].
    apply simulate_order_ok in Hm as (Hid & _).
    apply Forall_app. split.
    + refine (Forall_impl _ _ Hid). intros x Hx. rewrite Hx. now left.
    + refine (Forall_impl _ _ (IH _ _ _ Hm0)). intros x Hx. now right.
Qed.

Lemma rows_of_order_none id rows :
  Forall (fun x => r_order_id x <> id) rows -> rows_of_order id rows = [].
Proof.
  unfold rows_of_order. induction 1 as [|x l Hx _ IH]; simpl; [reflexivity|].
  apply Z.eqb_neq in Hx. now rewrite Hx.
Qed.

Lemma rows_of_order_all id rows :
  Forall (fun x => r_order_id x = id) rows -> rows_of_order id rows = rows.
Proof.
  unfold rows_of_order. induction 1 as [|x l Hx _ IH]; simpl; [reflexivity|].
  rewrite Hx, Z.eqb_refl. now f_equal.
Qed.

(** With distinct order ids, the rows of order [o] in the output of the
    run are exactly the rows of one simulation of [o]. *)
Lemma gen_rows_segment orders (r : R) rows r' o :
  NoDup (map order_id orders) -> In o orders ->
  gen_rowsC orders r = Ok (rows, r') ->
  exists r1 r1', simulate_orderC o r1 = Ok (rows_of_order (order_id o) rows, r1').
Proof.
  revert r rows r'; induction orders as [|o' os IH]; intros r rows r' Hnd Hin E; [destruct Hin|].
  simpl in E. inv_bind E. inv_bind E. apply ret_ok in E as [<- _].
  inversion Hnd as [|? ? Hnin Hnd']; subst.
  unfold rows_of_order. rewrite filter_app. fold (rows_of_order (order_id o) a).
  fold (rows_of_order (order_id o) a0).
  pose proof (simulate_order_ok _ _ _ _ _ _ _ _ Hm) as (Hid & _).
  destruct Hin as [->|Hin].
  - rewrite (rows_of_order_all _ _ Hid).
    rewrite (rows_of_order_none (order_id o) a0), app_nil_r; [eauto|].
    refine (Forall_impl _ _ (gen_rows_ids _ _ _ _ Hm0)). intros x Hx Heq.
    rewrite Heq in Hx. contradiction.
  - rewrite (rows_of_order_none (order_id o) a); [simpl; eauto|].
    refine (Forall_impl _ _ Hid). intros x Hx Heq. rewrite Hx in Heq.
    apply Hnin. rewrite Heq. now apply in_map.
Qed.
End GenFacts.

(** ** Per-order outcomes *)

Lemma count_status_failed_paid p status pre x :
  lookup String.eqb "failed"%string status <> Some p ->
  Forall (failed_row status) pre -> r_payment_status_id x = p ->
  count_status p (pre ++ [x]) = 1%nat.
Proof.
  intros Hfp Hpre Hx. unfold count_status. rewrite filter_app, length_app.
  replace (filter (fun y => r_payment_status_id y =? p) pre) with (@nil row).
  - simpl. rewrite Hx, Z.eqb_refl. reflexivity.
  - induction Hpre as [|y l [Hy _] _ IH]; simpl; [reflexivity|].
    destruct (r_payment_status_id y =? p) eqn:E; [|exact IH].
    apply Z.eqb_eq in E. rewrite E in Hy. contradiction.
Qed.

(** C1: in the rows of a whole run (orders with distinct ids, a status
    table in which ['paid'] and ['failed'] have distinct ids), a
    non-cancelled order has exactly one row with the ['paid'] status,
    and it is the last row of that order. *)
Theorem non_cancelled_order_one_final_success {R} `{PyRandom R}
  (config : list (string * method_cfg)) (method_id_by_code status_id_by_code : list (string * Z))
  (fuel : nat) (orders : list order_info) (r : R) (rows : list row) (r' : R)
  (o : order_info) (p : Z)
  (Hp : lookup String.eqb "paid"%string status_id_by_code = Some p)
  (Hfp : lookup String.eqb "failed"%string status_id_by_code <> Some p)
  (Hnd : NoDup (map order_id orders)) (Hin : In o orders)
  (Hnc : order_status o <> CANCELLED_STATUS)
  (Hrun : gen_rows config method_id_by_code status_id_by_code fuel orders r = Ok (rows, r')) :
  count_status p (rows_of_order (order_id o) rows) = 1%nat /\
  exists pre x, rows_of_order (order_id o) rows = pre ++ [x] /\ r_payment_status_id x = p.
Proof.
  destruct (gen_rows_segment _ _ _ _ _ _ _ _ _ Hnd Hin Hrun) as (r1 & r1' & E).
  apply simulate_order_ok in E as (_ & Hnc' & _).
  destruct (Hnc' Hnc) as (pre & x & Heq & Hpre & [Hx _]).
  rewrite Hp in Hx. injection Hx as Hx. rewrite Heq.
  split; [now apply (count_status_failed_paid p status_id_by_code)|].
  eauto.
Qed.

Lemma non_cancelled_order_one_final_success_witness :
  count_status 1 (rows_of_order (order_id delivered_order)
    [Build_row 7 1 1006 (100#1) 10 1]) = 1%nat /\
  exists pre x, rows_of_order (order_id delivered_order) [Build_row 7 1 1006 (100#1) 10 1]
                = pre ++ [x] /\ r_payment_status_id x = 1.
Proof.
  apply (non_cancelled_order_one_final_success (card_only_config 1)
           [("card"%string, 10)] example_status_ids 100 [delivered_order]
           (Build_scripted [1#10; 1#2; 3#10]%Q [5]) [Build_row 7 1 1006 (100#1) 10 1]
           (Build_scripted [] []) delivered_order 1).
  - reflexivity.
  - vm_compute. discriminate.
  - simpl. constructor; [simpl; tauto|constructor].
  - simpl. now left.
  - vm_compute. discriminate.
  - vm_compute. reflexivity.
Defined.

(** C2 fails as stated: a cancelled order whose first attempt draws a
    success gets a ['paid'] row for its total. *)
Lemma cancelled_order_paid_row :
  gen_rows (card_only_config 1) [("card"%string, 10)] example_status_ids 100
    [cancelled_order] (Build_scripted [1#10; 1#2; 3#10]%Q [5])
  = Ok ([Build_row 8 1 1006 (100#1) 10 1], Build_scripted [] []) /\
  paid_row example_status_ids cancelled_order (Build_row 8 1 1006 (100#1) 10 1) /\
  ~ failed_row example_status_ids (Build_row 8 1 1006 (100#1) 10 1).
Proof.
  split; [vm_compute; reflexivity|].
  split; [split; reflexivity|].
  intros [H _]. discriminate H.
Qed.

(** C4 (amended): in the rows of a whole run, the attempt numbers of an
    order's rows are at least 1 and strictly increasing; they are
    exactly [1..m] ([m] the number of rows) when every configured
    method has an id. An attempt skipped for a method without an id
    still uses its number, so the numbers can then have gaps. *)
Theorem attempt_numbers_of_order {R} `{PyRandom R}
  (config : list (string * method_cfg)) (method_id_by_code status_id_by_code : list (string * Z))
  (fuel : nat) (orders : list order_info) (r : R) (rows : list row) (r' : R)
  (o : order_info)
  (Hnd : NoDup (map order_id orders)) (Hin : In o orders)
  (Hrun : gen_rows config method_id_by_code status_id_by_code fuel orders r = Ok (rows, r')) :
  Forall (fun n => 1 <= n) (map r_attempt_no (rows_of_order (order_id o) rows)) /\
  strictly_increasing (map r_attempt_no (rows_of_order (order_id o) rows)) /\
  (all_methods_known config method_id_by_code ->
   map r_attempt_no (rows_of_order (order_id o) rows) =
   map Z.of_nat (seq 1 (length (rows_of_order (order_id o) rows)))).
Proof.
  destruct (gen_rows_segment _ _ _ _ _ _ _ _ _ Hnd Hin Hrun) as (r1 & r1' & E).
  apply simulate_order_ok in E as (_ & _ & _ & Hpos & Hinc & Hfull).
  split; [apply Forall_map; exact Hpos|]. auto.
Qed.

Lemma attempt_numbers_of_order_witness :
  Forall (fun n => 1 <= n) (map r_attempt_no (rows_of_order (order_id delivered_order) [Build_row 7 1 1006 (100#1) 10 1])) /\
  strictly_increasing (map r_attempt_no (rows_of_order (order_id delivered_order) [Build_row 7 1 1006 (100#1) 10 1])) /\
  (all_methods_known (card_only_config 1) [("card"%string, 10)] ->
   map r_attempt_no (rows_of_order (order_id delivered_order) [Build_row 7 1 1006 (100#1) 10 1]) =
   map Z.of_nat (seq 1 (length (rows_of_order (order_id delivered_order) [Build_row 7 1 1006 (100#1) 10 1])))).
Proof.
  apply (attempt_numbers_of_order (card_only_config 1)
           [("card"%string, 10)] example_status_ids 100 [delivered_order]
           (Build_scripted [1#10; 1#2; 3#10]%Q [5]) [Build_row 7 1 1006 (100#1) 10 1]
           (Build_scripted [] []) delivered_order).
  - simpl. constructor; [simpl; tauto|constructor].
  - simpl. now left.
  - vm_compute. reflexivity.
Defined.

(** C4 fails as stated: with the configuration of the script and no id
    for ["mbway"] and ["bank_transfer"], a skipped attempt leaves the
    order's attempt numbers at [1; 3] for two rows. *)
Lemma attempt_numbers_gap :
  match gen_rows PAYMENT_METHOD_CONFIG [("card"%string, 10); ("paypal"%string, 11)]
          example_status_ids 100 [delivered_order]
          (Build_scripted [1#2; 1#10; 9#10; 9#10; 9#10; 9#10; 9#10]%Q [5; 9; 8; 7]) with
  | Ok (rows, _) => map r_attempt_no (rows_of_order 7 rows) = [1; 3] /\
                    length (rows_of_order 7 rows) = 2%nat
  | Err _ => False
  end.
Proof. vm_compute. split; reflexivity. Qed.

(** ** Per-method caps *)

(** C5 (amended): with distinct method codes in the configuration, the
    per-order counter [method_counts] stays within
    [min(max_attempts, MAX_GLOBAL_ATTEMPTS)] for every configured
    method: every iteration of the attempt loop keeps the bound, so it
    holds at the end of the loop when no cap is negative. The
    forced-resolution row is not counted, so the rows of an order can
    use a method once more than its cap. *)
Theorem attempt_counts_within_caps {R} `{PyRandom R}
  (config : list (string * method_cfg)) (method_id_by_code status_id_by_code : list (string * Z))
  (o : order_info) (Hnd : NoDup (map fst config)) :
  (forall t st (r : R) c st' r',
     counts_within_caps config (ls_counts st) ->
     attempt_body config method_id_by_code status_id_by_code o t st r = Ok ((c, st'), r') ->
     counts_within_caps config (ls_counts st')) /\
  ((forall m c, In (m, c) config -> 0 <= cfg_max_attempts c) ->
   forall ts m (r : R) st r',
     attempt_loop config method_id_by_code status_id_by_code o ts (init_state m) r = Ok (st, r') ->
     counts_within_caps config (ls_counts st)).
Proof.
  assert (Hstep : forall t st (r : R) c st' r',
     counts_within_caps config (ls_counts st) ->
     attempt_body config method_id_by_code status_id_by_code o t st r = Ok ((c, st'), r') ->
     counts_within_caps config (ls_counts st')).
  { intros t st r c st' r' Hinv E.
    apply attempt_body_ok in E as [(_ & _ & _ & Hc & _)|(m & cfg & r1 & Hin & Hlt & E)].
    - now rewrite Hc.
    - apply attempt_with_ok in E as (_ & Hc & _). simpl in Hc. rewrite Hc.
      intros m' c' Hl. unfold incr_count.
      destruct (String.eqb m' m) eqn:Em.
      + apply String.eqb_eq in Em. subst m'.
        rewrite (lookup_NoDup String.eqb String.eqb_eq m config cfg Hnd Hin) in Hl.
        injection Hl as <-. lia.
      + now apply Hinv. }
  split; [exact Hstep|].
  intros Hcap ts m r st r' E.
  refine (attempt_loop_preserves config method_id_by_code status_id_by_code o
            (fun st => counts_within_caps config (ls_counts st)) _ _ _ _ _ _ _ E).
  - intros t st0 r0 c st0' r0' Hinv _ E0. exact (Hstep _ _ _ _ _ _ Hinv E0).
  - intros m' c Hl. simpl. unfold cap_of, MAX_GLOBAL_ATTEMPTS.
    apply (lookup_In String.eqb String.eqb_eq) in Hl. specialize (Hcap _ _ Hl). lia.
Qed.

Lemma attempt_counts_within_caps_witness :
  (forall t st (r : scripted) c st' r',
     counts_within_caps PAYMENT_METHOD_CONFIG (ls_counts st) ->
     attempt_body PAYMENT_METHOD_CONFIG all_method_ids example_status_ids delivered_order t st r
       = Ok ((c, st'), r') ->
     counts_within_caps PAYMENT_METHOD_CONFIG (ls_counts st')) /\
  ((forall m c, In (m, c) PAYMENT_METHOD_CONFIG -> 0 <= cfg_max_attempts c) ->
   forall ts m (r : scripted) st r',
     attempt_loop PAYMENT_METHOD_CONFIG all_method_ids example_status_ids delivered_order
       ts (init_state m) r = Ok (st, r') ->
     counts_within_caps PAYMENT_METHOD_CONFIG (ls_counts st)).
Proof.
  apply attempt_counts_within_caps.
  vm_compute. repeat constructor; simpl; intuition discriminate.
Defined.

(** C5 fails as stated: with the configuration of the script,
    ["bank_transfer"] (cap 2) fails twice and then gets the forced row:
    three of the order's rows use it. *)
Lemma forced_row_exceeds_cap :
  match lookup String.eqb "bank_transfer"%string PAYMENT_METHOD_CONFIG with
  | Some c => cap_of c = 2
  | None => False
  end /\
  match gen_rows PAYMENT_METHOD_CONFIG all_method_ids example_status_ids 100 [delivered_order]
          (Build_scripted [1#2; 99#100; 9#10; 1#10; 9#10]%Q [10; 20]) with
  | Ok (rows, _) => length (filter (fun x => r_payment_method_id x =? 4) (rows_of_order 7 rows)) = 3%nat
  | Err _ => False
  end.
Proof. vm_compute. split; reflexivity. Qed.

(** ** Attempts with a method that has no id *)

(** C10 fails as stated: without an id for ["card"], the first attempt
    (with ["card"]) draws a success and is skipped; the second, with
    ["paypal"], succeeds, and the order ends with that natural success
    (attempt 2, at the second attempt time) rather than with a forced
    row (which would be attempt 3, one second after the last attempt
    time). *)
Lemma unknown_method_then_natural_success :
  gen_rows PAYMENT_METHOD_CONFIG
    [("paypal"%string, 2); ("mbway"%string, 3); ("bank_transfer"%string, 4)]
    example_status_ids 100 [delivered_order]
    (Build_scripted [1#2; 1#10; 1#10; 9#10; 1#10; 1#10]%Q [10; 20])
  = Ok ([Build_row 7 2 1021 (100#1) 2 1], Build_scripted [] []) /\
  forced_date delivered_order [1011; 1021] = 1022.
Proof. vm_compute. split; reflexivity. Qed.

(** ** Sampling without replacement *)

Lemma list_set_length {A} (l : list A) i x : length (list_set l i x) = length l.
Proof.
  revert i; induction l as [|y l IH]; intros [|i]; simpl; auto.
Qed.

Lemma list_set_middle {A} (a b : list A) y x :
  list_set (a ++ y :: b) (length a) x = a ++ x :: b.
Proof. induction a as [|z a IH]; simpl; [reflexivity|now rewrite IH]. Qed.

Lemma list_set_map {A B} (f : A -> B) (l : list A) i x :
  list_set (map f l) i (f x) = map f (list_set l i x).
Proof.
  revert i; induction l as [|y l IH]; intros [|i]; simpl; auto.
  now rewrite IH.
Qed.

Lemma removelast_map {A B} (f : A -> B) (l : list A) :
  removelast (map f l) = map f (removelast l).
Proof.
  induction l as [|y [|z l] IH]; simpl; auto.
  simpl in IH. now rewrite IH.
Qed.

(** Swapping the element at [i] with the last one and popping it removes
    that element and keeps the others. *)
Lemma swap_pop_perm {A} (l : list A) i x :
  nth_error l i = Some x ->
  exists xl, nth_error l (length l - 1) = Some xl /\
    Permutation l (x :: removelast (list_set (list_set l i xl) (length l - 1) x)) /\
    length (removelast (list_set (list_set l i xl) (length l - 1) x)) = (length l - 1)%nat.
Proof.
  intro Hx. destruct (nth_error_split _ _ Hx) as (a & b & -> & <-).
  induction b as [|xl b' _] using rev_ind.
  - exists x. rewrite length_app. simpl. replace (length a + 1 - 1)%nat with (length a) by lia.
    rewrite nth_error_app2, Nat.sub_diag by lia. split; [reflexivity|].
    rewrite !list_set_middle, removelast_last.
    split; [|lia]. apply Permutation_sym, Permutation_cons_append.
  - exists xl.
    replace (length (a ++ x :: b' ++ [xl]) - 1)%nat with (length (a ++ xl :: b'))
      by (rewrite !length_app; simpl; rewrite length_app; simpl; lia).
    replace (a ++ x :: b' ++ [xl]) with ((a ++ x :: b') ++ [xl]) at 1
      by (now rewrite <- app_assoc).
    rewrite nth_error_app2 by (rewrite !length_app; simpl; lia).
    replace (length (a ++ xl :: b') - length (a ++ x :: b'))%nat with O
      by (rewrite !length_app; simpl; lia).
    split; [reflexivity|].
    rewrite list_set_middle.
    replace (a ++ xl :: b' ++ [xl]) with ((a ++ xl :: b') ++ [xl]) by (now rewrite <- app_assoc).
    replace (length (a ++ xl :: b')) with (length (a ++ xl :: b') + 0)%nat at 2 by lia.
    rewrite <- (app_nil_r [xl]).
    replace ((a ++ xl :: b') ++ [xl] ++ []) with ((a ++ xl :: b') ++ xl :: []) by reflexivity.
    rewrite Nat.add_0_r, list_set_middle, removelast_last.
    split; [|reflexivity].
    try rewrite <- app_assoc; simpl.
    eapply Permutation_trans; [apply Permutation_sym, Permutation_middle|].
    constructor. apply Permutation_app_head. apply Permutation_sym, Permutation_cons_append.
Qed.

Section SampleFacts.
Context {R : Type} `{PyRandom R}.
Variable weights_map : list (Z * Q).
Local Abbreviation w := (product_weight weights_map).

(** What one run of the loop returns: the chosen elements and a rest
    that together permute the start; fewer than [n] new elements only
    when the rest is non-empty with weights summing to [<= 0]. *)
Lemma sample_loop_ok n pool chosen (r : R) res r' :
  (n <= length pool)%nat ->
  sample_loop n pool (map w pool) chosen r = Ok (res, r') ->
  exists rest, Permutation (chosen ++ pool) (res ++ rest) /\
    (length res <= length chosen + n)%nat /\
    ((length res < length chosen + n)%nat -> rest <> [] /\ (py_sum (map w rest) <= 0)%Q).
Proof.
  revert pool chosen r; induction n as [|n IH]; intros pool chosen r Hn E; simpl in E.
  - apply ret_ok in E as [<- _]. exists pool. split; [reflexivity|]. split; lia.
  - inv_bind E.
    destruct (nth_error pool a) as [pid|] eqn:Hpid; [|exfalso; eapply raise_ok; exact E].
    destruct (swap_pop_perm pool a pid Hpid) as (xl & Hxl & Hperm & Hlen').
    inv_bind E. unfold swap in Hm0. rewrite Hxl, Hpid in Hm0. apply ret_ok in Hm0 as [<- <-].
    inv_bind E. unfold swap in Hm0. rewrite !nth_error_map, Hxl, Hpid in Hm0. simpl in Hm0.
    apply ret_ok in Hm0 as [<- <-].
    rewrite ?length_map, !list_set_map, removelast_map in E.
    set (pool' := removelast (list_set (list_set pool a xl) (length pool - 1) pid)) in *.
    assert (Hp : Permutation (chosen ++ pool) ((chosen ++ [pid]) ++ pool')).
    { rewrite <- app_assoc. simpl. now apply Permutation_app_head. }
    assert (Hcont : forall r1, sample_loop n pool' (map w pool') (chosen ++ [pid]) r1 = Ok (res, r') ->
      exists rest, Permutation (chosen ++ pool) (res ++ rest) /\
      (length res <= length chosen + S n)%nat /\
      ((length res < length chosen + S n)%nat -> rest <> [] /\ (py_sum (map w rest) <= 0)%Q)).
    { intros r1 E'. destruct (IH pool' (chosen ++ [pid]) r1 ltac:(lia) E') as (rest & Hr1 & Hr2 & Hr3).
      rewrite length_app in Hr2, Hr3. simpl in Hr2, Hr3.
      exists rest. split; [eapply Permutation_trans; eauto|].
      split; [lia|]. intro Hlt. apply Hr3. lia. }
    destruct pool' as [|p0 ps] eqn:Hpl; simpl map in E.
    + eapply Hcont. exact E.
    + destruct (Qle_bool _ 0) eqn:Hb.
      * apply ret_ok in E as [<- _]. exists (p0 :: ps).
        split; [exact Hp|]. rewrite length_app. simpl. split; [lia|].
        intros _. split; [discriminate|]. now apply Qle_bool_iff.
      * eapply Hcont. exact E.
Qed.
(** The loop raises nothing while the weights left sum to [> 0]. *)
Lemma sample_loop_total n pool chosen (r : R) :
  (n <= length pool)%nat -> (n = O \/ (0 < py_sum (map w pool))%Q) ->
  exists res r', sample_loop n pool (map w pool) chosen r = Ok (res, r').
Proof.
  revert pool chosen r; induction n as [|n IH]; intros pool chosen r Hn Hpos.
  - exists chosen, r. reflexivity.
  - destruct Hpos as [Hc|Hpos]; [discriminate|].
    assert (Hne : seq 0 (length pool) <> []) by (destruct pool; simpl in *; [lia|discriminate]).
    pose proof (py_choices_spec (seq 0 (length pool)) (map w pool) r
                  ltac:(now rewrite length_map, length_seq) Hne) as Hc.
    cbn [sample_loop]. unfold bind at 1.
    destruct (py_choices (seq 0 (length pool)) (map w pool) r) as [[idx r0]|e] eqn:Hch.
    2:{ destruct Hc as [_ Hle]. exfalso. apply (Qlt_not_le _ _ Hpos Hle). }
    destruct Hc as [_ Hidx]. apply in_seq in Hidx.
    destruct (nth_error pool idx) as [pid|] eqn:Hpid.
    2:{ apply nth_error_None in Hpid. lia. }
    destruct (swap_pop_perm pool idx pid Hpid) as (xl & Hxl & Hperm & Hlen').
    unfold swap. rewrite !nth_error_map, Hxl, Hpid. simpl.
    unfold bind, ret. cbv beta iota zeta.
    rewrite ?length_map, !list_set_map, removelast_map.
    set (pool' := removelast (list_set (list_set pool idx xl) (length pool - 1) pid)) in *.
    destruct pool' as [|p0 ps] eqn:Hpl.
    + apply IH; simpl in *; [lia|left; lia].
    + cbn [map]. destruct (Qle_bool _ 0) eqn:Hb.
      * exists (chosen ++ [pid]), r0. reflexivity.
      * apply IH; [simpl in *; lia|right].
        apply Qnot_le_lt. intro Hle. apply Qle_bool_iff in Hle. simpl in Hle, Hb. congruence.
Qed.
End SampleFacts.

Lemma sample_guard_true (candidate_ids : list Z) k :
  ((k <=? 0) || match candidate_ids with [] => true | _ => false end) = true ->
  Z.to_nat (Z.min k (Z.of_nat (length candidate_ids))) = O.
Proof.
  intro Hg. apply orb_true_iff in Hg as [Hk|Hc].
  - apply Z.leb_le in Hk. lia.
  - destruct candidate_ids; [simpl; lia|discriminate].
Qed.

Lemma sample_guard_false (candidate_ids : list Z) k :
  ((k <=? 0) || match candidate_ids with [] => true | _ => false end) = false ->
  1 <= k /\ candidate_ids <> [].
Proof.
  intro Hg. apply orb_false_iff in Hg as [Hk Hc]. apply Z.leb_gt in Hk.
  split; [lia|]. destruct candidate_ids; [discriminate|discriminate].
Qed.

(** C8 (amended): for distinct candidates, a call that returns gives
    distinct candidates, at most [min(k, |candidates|)] of them; fewer
    only when the candidates not drawn are non-empty and their weights
    sum to [<= 0] (the early [break], not an error). The call returns
    when [k <= 0], when there are no candidates, or when the weights sum
    to [> 0]; with [k >= 1], candidates and weights summing to [<= 0]
    (e.g. all zero) the first [rng.choices] raises [ValueError]. *)
Theorem sample_unique_products_weighted_spec {R} `{PyRandom R}
  (candidate_ids : list Z) (weights_map : list (Z * Q)) (k : Z) (r : R) :
  (NoDup candidate_ids -> forall res r',
     sample_unique_products_weighted candidate_ids weights_map k r = Ok (res, r') ->
     NoDup res /\ incl res candidate_ids /\
     (length res <= Z.to_nat (Z.min k (Z.of_nat (length candidate_ids))))%nat /\
     ((length res < Z.to_nat (Z.min k (Z.of_nat (length candidate_ids))))%nat ->
      exists rest, rest <> [] /\ Permutation candidate_ids (res ++ rest) /\
        (py_sum (map (product_weight weights_map) rest) <= 0)%Q)) /\
  ((k <= 0 \/ candidate_ids = [] \/
    (0 < py_sum (map (product_weight weights_map) candidate_ids))%Q) ->
   exists res r', sample_unique_products_weighted candidate_ids weights_map k r = Ok (res, r')) /\
  (1 <= k -> candidate_ids <> [] ->
   (py_sum (map (product_weight weights_map) candidate_ids) <= 0)%Q ->
   sample_unique_products_weighted candidate_ids weights_map k r = Err ValueError).
Proof.
  unfold sample_unique_products_weighted.
  destruct ((k <=? 0) || match candidate_ids with [] => true | _ => false end) eqn:Hg.
  - pose proof (sample_guard_true _ _ Hg) as H0.
    split; [|split].
    + intros _ res r' E. apply ret_ok in E as [<- _]. rewrite H0.
      split; [constructor|]. split; [intros x []|]. simpl. split; [lia|lia].
    + intros _. exists [], r. reflexivity.
    + intros Hk Hc _. exfalso. apply orb_true_iff in Hg as [Hk'|Hc'].
      * apply Z.leb_le in Hk'. lia.
      * destruct candidate_ids; [now apply Hc|discriminate].
  - destruct (sample_guard_false _ _ Hg) as [Hk Hc]. cbv zeta.
    assert (Hn : (Z.to_nat (Z.min k (Z.of_nat (length candidate_ids))) <= length candidate_ids)%nat) by lia.
    split; [|split].
    + intros Hnd res r' E.
      destruct (sample_loop_ok weights_map _ candidate_ids [] r res r' Hn E) as (rest & Hp & Hl & Hs).
      simpl in Hp, Hl, Hs.
      assert (Hnd' : NoDup (res ++ rest)) by exact (Permutation_NoDup Hp Hnd).
      split; [exact (NoDup_app_remove_r _ _ Hnd')|].
      split; [intros x Hx; apply (Permutation_in x (Permutation_sym Hp)), in_or_app; now left|].
      split; [exact Hl|]. intro Hlt. destruct (Hs Hlt) as [Hne Hsum]. eauto.
    + intros [Hk'|[Hc'|Hpos]]; [lia|contradiction|].
      apply sample_loop_total; [exact Hn|right; exact Hpos].
    + intros _ _ Hle.
      destruct (Z.to_nat (Z.min k (Z.of_nat (length candidate_ids)))) as [|n] eqn:En.
      { exfalso. destruct candidate_ids; [now apply Hc|]. simpl in En. lia. }
      assert (Hne : seq 0 (length candidate_ids) <> [])
        by (destruct candidate_ids; [exfalso; now apply Hc|discriminate]).
      pose proof (py_choices_spec (seq 0 (length candidate_ids))
                    (map (product_weight weights_map) candidate_ids) r
                    ltac:(now rewrite length_map, length_seq) Hne) as Hch.
      cbn [sample_loop]. unfold bind at 1.
      destruct (py_choices _ _ r) as [[idx r0]|e].
      * exfalso. destruct Hch as [Hpos _]. exact (Qlt_not_le _ _ Hpos Hle).
      * destruct Hch as [-> _]. reflexivity.
Qed.

Lemma sample_unique_products_weighted_spec_witness :
  NoDup [1] /\ incl [1] [1; 2; 3] /\
  (length [1] <= Z.to_nat (Z.min 3 (Z.of_nat (length [1; 2; 3]))))%nat /\
  ((length [1] < Z.to_nat (Z.min 3 (Z.of_nat (length [1; 2; 3]))))%nat ->
   exists rest, rest <> [] /\ Permutation [1; 2; 3] ([1] ++ rest) /\
     (py_sum (map (product_weight [(1%Z, 1%Q); (2%Z, 0%Q); (3%Z, 0%Q)]) rest) <= 0)%Q).
Proof.
  apply (proj1 (sample_unique_products_weighted_spec [1; 2; 3] [(1, 1%Q); (2, 0%Q); (3, 0%Q)] 3
                  (Build_scripted [1#2; 1#2]%Q [])) ltac:(repeat constructor; simpl; lia)
                  [1] (Build_scripted [1#2]%Q [])).
  vm_compute. reflexivity.
Defined.

(** C8 fails as stated: with all weights [0], [k = 1] and two
    candidates, the first [rng.choices] raises [ValueError]. *)
Lemma sample_zero_weights_raises :
  sample_unique_products_weighted [1; 2] [(1, 0%Q); (2, 0%Q)] 1 (Build_scripted [1#2]%Q [])
  = Err ValueError.
Proof. vm_compute. reflexivity. Qed.

(* ------------------------------------------------------------------ *)
(** * Further properties of the scripts *)

(** ** Sums of rationals *)

Lemma fold_left_Qplus_shift xs a :
  (fold_left Qplus xs a == a + fold_left Qplus xs 0)%Q.
Proof.
  revert a; induction xs as [|x xs IH]; intro a; simpl.
  - ring.
  - rewrite (IH (a + x)%Q), (IH (0 + x)%Q). ring.
Qed.

Lemma py_sum_cons x xs : (py_sum (x :: xs) == x + py_sum xs)%Q.
Proof. unfold py_sum. simpl. rewrite fold_left_Qplus_shift. ring. Qed.

Lemma py_sum_nonneg xs : Forall (fun v => 0 <= v)%Q xs -> (0 <= py_sum xs)%Q.
Proof.
  induction 1 as [|x xs Hx _ IH]; [unfold py_sum; simpl; apply Qle_refl|].
  rewrite py_sum_cons. apply (Qplus_le_compat 0 x 0 (py_sum xs)) in IH; [|exact Hx].
  exact IH.
Qed.

Lemma py_sum_pos xs : xs <> [] -> Forall (fun v => 0 < v)%Q xs -> (0 < py_sum xs)%Q.
Proof.
  intros Hne Hpos. destruct xs as [|x xs]; [contradiction|].
  inversion Hpos as [|? ? Hx Hxs]; subst.
  rewrite py_sum_cons.
  assert (0 <= py_sum xs)%Q.
  { apply py_sum_nonneg. refine (Forall_impl _ _ Hxs). intros v Hv. now apply Qlt_le_weak. }
  apply (Qlt_le_trans _ (x + 0)%Q); [now rewrite Qplus_0_r|].
  now apply Qplus_le_compat; [apply Qle_refl|].
Qed.

(** ** Dicts built by assignment *)

Section DictFacts.
Context {K V : Type} (eqb : K -> K -> bool).
Hypothesis eqb_spec : forall x y, eqb x y = true <-> x = y.

Lemma eqb_refl_dict x : eqb x x = true.
Proof. now apply eqb_spec. Qed.

Lemma lookup_app k (l1 l2 : list (K * V)) :
  lookup eqb k (l1 ++ l2) =
  match lookup eqb k l1 with Some v => Some v | None => lookup eqb k l2 end.
Proof.
  induction l1 as [|[k' v'] l1 IH]; simpl; [reflexivity|].
  destruct (eqb k k'); [reflexivity|exact IH].
Qed.

Lemma dict_set_lookup k v k' (d : list (K * V)) :
  lookup eqb k' (dict_set eqb k v d) = if eqb k' k then Some v else lookup eqb k' d.
Proof.
  induction d as [|[k0 v0] d IH]; simpl.
  - destruct (eqb k' k); reflexivity.
  - destruct (eqb k k0) eqn:E0.
    + apply eqb_spec in E0. subst k0. simpl. destruct (eqb k' k); reflexivity.
    + simpl. rewrite IH. destruct (eqb k' k0) eqn:E1; [|reflexivity].
      apply eqb_spec in E1. subst k'. destruct (eqb k0 k) eqn:E2; [|reflexivity].
      apply eqb_spec in E2. subst k0. now rewrite eqb_refl_dict in E0.
Qed.

Lemma dict_set_keys_in k v (d : list (K * V)) x :
  In x (map fst (dict_set eqb k v d)) <-> x = k \/ In x (map fst d).
Proof.
  induction d as [|[k0 v0] d IH]; simpl; [intuition congruence|].
  destruct (eqb k k0) eqn:E.
  - apply eqb_spec in E. subst k0. simpl. intuition congruence.
  - simpl. rewrite IH. intuition congruence.
Qed.

Lemma dict_set_NoDup k v (d : list (K * V)) :
  NoDup (map fst d) -> NoDup (map fst (dict_set eqb k v d)).
Proof.
  induction d as [|[k0 v0] d IH]; simpl; intro Hnd.
  - repeat constructor. intros [].
  - inversion Hnd as [|? ? Hnin Hnd']; subst.
    destruct (eqb k k0) eqn:E.
    + apply eqb_spec in E. subst k0. simpl. now constructor.
    + simpl. constructor; [|now apply IH].
      rewrite dict_set_keys_in. intros [->|Hin]; [|contradiction].
      now rewrite eqb_refl_dict in E.
Qed.

(** A dict built by successive assignments [d[k] = v]: each key holds
    its last assigned value. *)
Lemma dict_fold_lookup {A} (f : A -> K * V) (xs : list A) (d : list (K * V)) k :
  lookup eqb k (fold_left (fun d x => let '(k, v) := f x in dict_set eqb k v d) xs d) =
  match lookup eqb k (rev (map f xs)) with Some v => Some v | None => lookup eqb k d end.
Proof.
  revert d; induction xs as [|x xs IH]; intro d; simpl; [reflexivity|].
  rewrite IH, lookup_app. destruct (f x) as [k0 v0] eqn:Hf.
  destruct (lookup eqb k (rev (map f xs))); [reflexivity|].
  simpl. rewrite dict_set_lookup. destruct (eqb k k0); reflexivity.
Qed.

Lemma dict_fold_NoDup {A} (f : A -> K * V) (xs : list A) (d : list (K * V)) :
  NoDup (map fst d) ->
  NoDup (map fst (fold_left (fun d x => let '(k, v) := f x in dict_set eqb k v d) xs d)).
Proof.
  revert d; induction xs as [|x xs IH]; intros d Hnd; simpl; [exact Hnd|].
  apply IH. destruct (f x). now apply dict_set_NoDup.
Qed.

Lemma dict_set_fresh k v (d : list (K * V)) :
  ~ In k (map fst d) -> dict_set eqb k v d = d ++ [(k, v)].
Proof.
  induction d as [|[k0 v0] d IH]; simpl; intro Hn; [reflexivity|].
  destruct (eqb k k0) eqn:E.
  - apply eqb_spec in E. subst. exfalso. apply Hn. now left.
  - f_equal. apply IH. tauto.
Qed.

(** With distinct keys, the assignments build the list itself. *)
Lemma dict_fold_distinct {A} (f : A -> K * V) (xs : list A) (d : list (K * V)) :
  NoDup (map fst d ++ map fst (map f xs)) ->
  fold_left (fun d x => let '(k, v) := f x in dict_set eqb k v d) xs d = d ++ map f xs.
Proof.
  revert d; induction xs as [|x xs IH]; intros d Hnd; simpl; [now rewrite app_nil_r|].
  destruct (f x) as [k0 v0] eqn:Hf. simpl in Hnd. rewrite Hf in Hnd. simpl in Hnd.
  assert (Hn : ~ In k0 (map fst d)).
  { intro Hin. apply (NoDup_remove_2 _ _ _ Hnd). apply in_or_app. now left. }
  rewrite (dict_set_fresh _ _ _ Hn), IH.
  - rewrite <- app_assoc. reflexivity.
  - rewrite map_app, <- app_assoc. exact Hnd.
Qed.
Lemma dict_comp_lookup {A} (f : A -> K * V) (xs : list A) k :
  lookup eqb k (dict_comp eqb f xs) = lookup eqb k (rev (map f xs)).
Proof.
  unfold dict_comp. rewrite dict_fold_lookup. destruct (lookup eqb k (rev (map f xs))); reflexivity.
Qed.

Lemma dict_comp_NoDup {A} (f : A -> K * V) (xs : list A) : NoDup (map fst (dict_comp eqb f xs)).
Proof. unfold dict_comp. apply dict_fold_NoDup. constructor. Qed.

Lemma dict_comp_distinct {A} (f : A -> K * V) (xs : list A) :
  NoDup (map fst (map f xs)) -> dict_comp eqb f xs = map f xs.
Proof. intro Hnd. unfold dict_comp. now rewrite dict_fold_distinct. Qed.

Lemma lookup_key_in k (d : list (K * V)) :
  In k (map fst d) -> exists v, lookup eqb k d = Some v.
Proof.
  induction d as [|[k0 v0] d IH]; simpl; [tauto|].
  destruct (eqb k k0) eqn:E; [eauto|].
  intros [->|Hin]; [now rewrite eqb_refl_dict in E|auto].
Qed.
End DictFacts.

Lemma map_pair_id {A B} (l : list (A * B)) : map (fun '(a, b) => (a, b)) l = l.
Proof. induction l as [|[a b] l IH]; simpl; [reflexivity|now f_equal]. Qed.

(** The inverse dict [{h(c): i for i, c in rows}] of rows with distinct
    [h(c)]. *)
Lemma lookup_rev_swap (h : string -> string) (rows : list (Z * string)) c i :
  NoDup (map (fun ic => h (snd ic)) rows) ->
  lookup String.eqb c (rev (map (fun '(i, c) => (h c, i)) rows)) = Some i <->
  exists c0, In (i, c0) rows /\ h c0 = c.
Proof.
  intro Hnd. split.
  - intro E. apply (lookup_In String.eqb String.eqb_eq) in E.
    apply in_rev, in_map_iff in E as [[i0 c0] [Heq Hin]]. injection Heq as Hc ->. eauto.
  - intros (c0 & Hin & <-). apply (lookup_NoDup String.eqb String.eqb_eq).
    + rewrite map_rev, map_map. apply NoDup_rev.
      replace (map (fun x => fst (let '(i, c) := x in (h c, i))) rows)
        with (map (fun ic => h (snd ic)) rows); [exact Hnd|].
      apply map_ext. intros [a b]. reflexivity.
    + apply in_rev. rewrite rev_involutive. apply in_map_iff. exists (i, c0). auto.
Qed.

(** [fetch_products] builds its two dicts with one pass over the rows. *)
Lemma fetch_products_fold (rows : list (Z * Q * Z * string)) ps cs :
  fold_left (fun '(products, category_names) '(pid, price, cat_id, cat_name) =>
     (dict_set Z.eqb pid (Build_product pid price cat_id) products,
      dict_set Z.eqb cat_id cat_name category_names)) rows (ps, cs) =
  (fold_left (fun d x => let '(k, v) := (fun '(pid, price, cat_id, _) =>
       (pid, Build_product pid price cat_id)) x in dict_set Z.eqb k v d) rows ps,
   fold_left (fun d x => let '(k, v) := (fun '(_, _, cat_id, cat_name) =>
       (cat_id, cat_name)) x in dict_set Z.eqb k v d) rows cs).
Proof.
  revert ps cs; induction rows as [|[[[pid price] cat] name] rows IH]; intros ps cs;
    simpl; [reflexivity|]. apply IH.
Qed.

(** ** Fetchers *)

(** X2: [fetch_payment_methods] raises ([None]) exactly on an empty
    table. On the rows of a non-empty table with distinct ids it returns the rows themselves as [id_to_code]; [code_to_id] has
    distinct keys and maps each code to the id of its last row; when the
    codes are distinct too it is the exact inverse of [id_to_code]. *)
Theorem fetch_payment_methods_round_trip (rows : list (Z * string))
  (Hid : NoDup (map fst rows)) :
  (fetch_payment_methods rows = None <-> rows = []) /\
  (rows <> [] ->
  exists code_to_id, fetch_payment_methods rows = Some (rows, code_to_id) /\
    NoDup (map fst code_to_id) /\
    (forall c, lookup String.eqb c code_to_id =
               lookup String.eqb c (rev (map (fun '(i, c) => (c, i)) rows))) /\
    (NoDup (map snd rows) ->
     forall c i, lookup String.eqb c code_to_id = Some i <-> In (i, c) rows)).
Proof.
  split; [destruct rows; simpl; split; congruence|]. intro Hne.
  assert (E : fetch_payment_methods rows =
              Some (dict_comp Z.eqb (fun '(i, c) => (i, c)) rows,
                    dict_comp String.eqb (fun '(i, c) => (c, i))
                      (dict_comp Z.eqb (fun '(i, c) => (i, c)) rows)))
    by (destruct rows; [congruence|reflexivity]).
  rewrite E, dict_comp_distinct by (exact Z.eqb_eq || now rewrite map_pair_id).
  rewrite map_pair_id. eexists. split; [reflexivity|].
  split; [apply dict_comp_NoDup, String.eqb_eq|].
  split; [intro c; apply dict_comp_lookup, String.eqb_eq|].
  intros Hc c i. rewrite dict_comp_lookup by exact String.eqb_eq.
  rewrite (lookup_rev_swap (fun s => s) rows c i).
  - split; [intros (c0 & Hin & <-); exact Hin|intro Hin; eauto].
  - replace (map (fun ic => snd ic) rows) with (map snd rows); [exact Hc|].
    apply map_ext. reflexivity.
Qed.

Lemma fetch_payment_methods_round_trip_witness :
  (fetch_payment_methods [(1, "card"%string); (2, "paypal"%string)] = None <->
   [(1, "card"%string); (2, "paypal"%string)] = []) /\
  ([(1, "card"%string); (2, "paypal"%string)] <> [] ->
  exists code_to_id,
    fetch_payment_methods [(1, "card"%string); (2, "paypal"%string)] =
      Some ([(1, "card"%string); (2, "paypal"%string)], code_to_id) /\
    NoDup (map fst code_to_id) /\
    (forall c, lookup String.eqb c code_to_id =
       lookup String.eqb c (rev (map (fun '(i, c) => (c, i)) [(1, "card"%string); (2, "paypal"%string)]))) /\
    (NoDup (map snd [(1, "card"%string); (2, "paypal"%string)]) ->
     forall c i, lookup String.eqb c code_to_id = Some i <-> In (i, c) [(1, "card"%string); (2, "paypal"%string)])).
Proof.
  apply fetch_payment_methods_round_trip.
  repeat constructor; simpl; lia.
Defined.

(** X3: [fetch_payment_statuses] raises ([None]) exactly on an empty
    table. On the rows of a non-empty table with distinct ids it returns the rows as [id_to_code]; [code_to_id] has distinct keys
    and maps each lowered code to the id of the last row with that
    lowered code; when the lowered codes are distinct, [code_to_id[c] = i]
    exactly when some row [(i, c0)] has [c0.lower() = c]. *)
Theorem fetch_payment_statuses_round_trip (lower : string -> string) (rows : list (Z * string))
  (Hid : NoDup (map fst rows)) :
  (fetch_payment_statuses lower rows = None <-> rows = []) /\
  (rows <> [] ->
  exists code_to_id, fetch_payment_statuses lower rows = Some (rows, code_to_id) /\
    NoDup (map fst code_to_id) /\
    (forall c, lookup String.eqb c code_to_id =
               lookup String.eqb c (rev (map (fun '(i, c) => (lower c, i)) rows))) /\
    (NoDup (map (fun ic => lower (snd ic)) rows) ->
     forall c i, lookup String.eqb c code_to_id = Some i <->
                 exists c0, In (i, c0) rows /\ lower c0 = c)).
Proof.
  split; [destruct rows; simpl; split; congruence|]. intro Hne.
  assert (E : fetch_payment_statuses lower rows =
              Some (dict_comp Z.eqb (fun '(i, c) => (i, c)) rows,
                    dict_comp String.eqb (fun '(i, c) => (lower c, i))
                      (dict_comp Z.eqb (fun '(i, c) => (i, c)) rows)))
    by (destruct rows; [congruence|reflexivity]).
  rewrite E, dict_comp_distinct by (exact Z.eqb_eq || now rewrite map_pair_id).
  rewrite map_pair_id. eexists. split; [reflexivity|].
  split; [apply dict_comp_NoDup, String.eqb_eq|].
  split; [intro c; apply dict_comp_lookup, String.eqb_eq|].
  intros Hc c i. rewrite dict_comp_lookup by exact String.eqb_eq.
  now apply lookup_rev_swap.
Qed.

Lemma fetch_payment_statuses_round_trip_witness :
  (fetch_payment_statuses (fun s => s) [(1, "paid"%string); (2, "failed"%string)] = None <->
   [(1, "paid"%string); (2, "failed"%string)] = []) /\
  ([(1, "paid"%string); (2, "failed"%string)] <> [] ->
  exists code_to_id,
    fetch_payment_statuses (fun s => s) [(1, "paid"%string); (2, "failed"%string)] =
      Some ([(1, "paid"%string); (2, "failed"%string)], code_to_id) /\
    NoDup (map fst code_to_id) /\
    (forall c, lookup String.eqb c code_to_id =
       lookup String.eqb c (rev (map (fun '(i, c) => ((fun s => s) c, i))
                                   [(1, "paid"%string); (2, "failed"%string)]))) /\
    (NoDup (map (fun ic => (fun s => s) (snd ic)) [(1, "paid"%string); (2, "failed"%string)]) ->
     forall c i, lookup String.eqb c code_to_id = Some i <->
       exists c0, In (i, c0) [(1, "paid"%string); (2, "failed"%string)] /\ (fun s => s) c0 = c)).
Proof.
  apply fetch_payment_statuses_round_trip.
  repeat constructor; simpl; lia.
Defined.

(** X4: the dicts of [fetch_products] have distinct keys; every product
    [products[pid]] has [product_id = pid], comes from a row of the query
    with that id, price and category, and its category id is a key of
    [category_names]; with one row per product id, [products[pid]] is
    the product of its row. *)
Theorem fetch_products_spec (rows : list (Z * Q * Z * string)) products category_names
  (E : fetch_products rows = Some (products, category_names)) :
  NoDup (map fst products) /\ NoDup (map fst category_names) /\
  (forall pid p, lookup Z.eqb pid products = Some p ->
     p_product_id p = pid /\
     (exists name, lookup Z.eqb (p_category_id p) category_names = Some name) /\
     exists price cat name, In (pid, price, cat, name) rows /\ p = Build_product pid price cat) /\
  (NoDup (map (fun '(pid, _, _, _) => pid) rows) ->
   forall pid price cat name, In (pid, price, cat, name) rows ->
   lookup Z.eqb pid products = Some (Build_product pid price cat)).
Proof.
  assert (E' : fetch_products rows =
    Some (dict_comp Z.eqb (fun '(pid, price, cat_id, _) => (pid, Build_product pid price cat_id)) rows,
          dict_comp Z.eqb (fun '(_, _, cat_id, cat_name) => (cat_id, cat_name)) rows)).
  { destruct rows as [|x rs]; [discriminate|]. unfold fetch_products.
    rewrite fetch_products_fold. reflexivity. }
  rewrite E' in E. injection E as <- <-.
  set (fp := (fun '(pid, price, cat_id, _) => (pid, Build_product pid price cat_id))
             : Z * Q * Z * string -> Z * product).
  split; [apply dict_comp_NoDup, Z.eqb_eq|].
  split; [apply dict_comp_NoDup, Z.eqb_eq|].
  split.
  - intros pid p Hp. rewrite dict_comp_lookup in Hp by exact Z.eqb_eq.
    apply (lookup_In Z.eqb Z.eqb_eq) in Hp.
    apply in_rev, in_map_iff in Hp as [[[[pid' price] cat] name] [Heq Hin]].
    simpl in Heq. injection Heq as -> <-. simpl.
    split; [reflexivity|]. split; [|eauto 6].
    rewrite dict_comp_lookup by exact Z.eqb_eq.
    apply (lookup_key_in Z.eqb Z.eqb_eq). rewrite map_rev, <- in_rev, map_map. apply in_map_iff.
    exists (pid, price, cat, name). split; [reflexivity|exact Hin].
  - intros Hnd pid price cat name Hin. rewrite dict_comp_lookup by exact Z.eqb_eq.
    apply (lookup_NoDup Z.eqb Z.eqb_eq).
    + rewrite map_rev, map_map. apply NoDup_rev.
      replace (map (fun x => fst (fp x)) rows) with (map (fun '(pid, _, _, _) => pid) rows); [exact Hnd|].
      apply map_ext. intros [[[a b] c] d]. reflexivity.
    + apply in_rev. rewrite rev_involutive. apply in_map_iff.
      exists (pid, price, cat, name). split; [reflexivity|exact Hin].
Qed.

Lemma fetch_products_spec_witness :
  let rows := [(1, 10#1, 3, "Books"%string); (2, 25#1, 4, "Toys"%string)] in
  exists products category_names,
  fetch_products rows = Some (products, category_names) /\
  (NoDup (map fst products) /\ NoDup (map fst category_names) /\
  (forall pid p, lookup Z.eqb pid products = Some p ->
     p_product_id p = pid /\
     (exists name, lookup Z.eqb (p_category_id p) category_names = Some name) /\
     exists price cat name, In (pid, price, cat, name) rows /\ p = Build_product pid price cat) /\
  (NoDup (map (fun '(pid, _, _, _) => pid) rows) ->
   forall pid price cat name, In (pid, price, cat, name) rows ->
   lookup Z.eqb pid products = Some (Build_product pid price cat))).
Proof.
  do 2 eexists. split; [vm_compute; reflexivity|].
  apply fetch_products_spec. vm_compute. reflexivity.
Defined.

(** ** Number and times of the planned attempts *)

Lemma si_cons2 x y l :
  strictly_increasing (x :: y :: l) <-> x < y /\ strictly_increasing (y :: l).
Proof. reflexivity. Qed.

Lemma si_cons x l :
  strictly_increasing (x :: l) <-> Forall (fun y => x < y) l /\ strictly_increasing l.
Proof.
  revert x; induction l as [|y l IH]; intro x.
  - simpl. split; [auto|tauto].
  - rewrite si_cons2. split.
    + intros [Hxy Hs]. split; [|exact Hs]. constructor; [exact Hxy|].
      apply IH in Hs as [Hf _]. refine (Forall_impl _ _ Hf). intros; lia.
    + intros [Hf Hs]. inversion Hf; subst. split; auto.
Qed.

Lemma si_app l1 l2 :
  strictly_increasing (l1 ++ l2) <->
  strictly_increasing l1 /\ strictly_increasing l2 /\
  (forall a b, In a l1 -> In b l2 -> a < b).
Proof.
  induction l1 as [|x l1 IH].
  - simpl. split; [intro; repeat split; auto; intros _ _ []|tauto].
  - rewrite <- app_comm_cons, !si_cons, IH, Forall_app, !Forall_forall. split.
    + intros [[Hx1 Hx2] (H1 & H2 & H3)]. split; [split; auto|]. split; [exact H2|].
      intros a b [<-|Ha] Hb; auto.
    + intros ([Hx1 H1] & H2 & H3). split; [split; auto|].
      * intros b Hb. apply H3; [now left|exact Hb].
      * split; [exact H1|]. split; [exact H2|].
        intros a b Ha Hb. apply H3; [now right|exact Hb].
Qed.

Lemma si_app_l l1 l2 : strictly_increasing (l1 ++ l2) -> strictly_increasing l1.
Proof. rewrite si_app. tauto. Qed.

Lemma si_drop l1 x l2 :
  strictly_increasing (l1 ++ x :: l2) -> strictly_increasing (l1 ++ l2).
Proof.
  rewrite !si_app, si_cons. intros (H1 & [_ H2] & H3). repeat split; auto.
  intros a b Ha Hb. apply H3; [exact Ha|now right].
Qed.

Lemma si_map_add b l :
  strictly_increasing l -> strictly_increasing (map (fun s => b + s) l).
Proof.
  induction l as [|x l IH]; [simpl; auto|].
  rewrite map_cons, !si_cons, Forall_map. intros [Hf Hs]. split; [|auto].
  refine (Forall_impl _ _ Hf). intros; lia.
Qed.

Lemma insert_sorted_perm x l : Permutation (insert_sorted x l) (x :: l).
Proof.
  induction l as [|y l IH]; simpl; [reflexivity|].
  destruct (x <=? y); [reflexivity|].
  eapply Permutation_trans; [apply perm_skip, IH|apply perm_swap].
Qed.

Lemma sort_Z_perm l : Permutation (sort_Z l) l.
Proof.
  induction l as [|x l IH]; simpl; [reflexivity|].
  eapply Permutation_trans; [apply insert_sorted_perm|now apply perm_skip].
Qed.

Lemma insert_sorted_si x l :
  strictly_increasing l -> ~ In x l -> strictly_increasing (insert_sorted x l).
Proof.
  induction l as [|y l IH]; intros Hs Hn; simpl; [exact I|].
  destruct (Z.leb_spec x y).
  - rewrite si_cons2. split; [|exact Hs]. assert (x <> y) by (intro; apply Hn; now left). lia.
  - rewrite si_cons in Hs |- *. destruct Hs as [Hf Hs]. split.
    + apply (Permutation_Forall (Permutation_sym (insert_sorted_perm x l))).
      constructor; [lia|exact Hf].
    + apply IH; [exact Hs|]. intro; apply Hn; now right.
Qed.

(** [sorted] of a set of integers is strictly increasing. *)
Lemma sort_Z_si l : NoDup l -> strictly_increasing (sort_Z l).
Proof.
  induction l as [|x l IH]; intro Hnd; simpl; [exact I|].
  inversion Hnd; subst. apply insert_sorted_si; [auto|].
  intro Hin. apply (Permutation_in _ (sort_Z_perm l)) in Hin. contradiction.
Qed.

Lemma set_add_spec x s :
  (NoDup s -> NoDup (set_add x s)) /\
  (length (set_add x s) <= S (length s))%nat /\ (length s <= length (set_add x s))%nat /\
  (forall y, In y (set_add x s) -> y = x \/ In y s).
Proof.
  unfold set_add. destruct (existsb (Z.eqb x) s) eqn:E.
  - repeat split; auto.
  - assert (Hn : ~ In x s).
    { intro Hin. assert (existsb (Z.eqb x) s = true) by (apply existsb_exists; exists x; split; auto; apply Z.eqb_refl).
      congruence. }
    repeat split; simpl; auto.
    + intro Hnd. now constructor.
    + intros y [<-|Hy]; auto.
Qed.

Lemma randint_ok {R} `{PyRandom R} a b (r : R) x r' :
  randint a b r = Ok (x, r') ->
  x = a + fst (rng_randbelow r (b - a + 1)) /\ r' = snd (rng_randbelow r (b - a + 1)).
Proof.
  unfold randint, randbelow, bind, ret. destruct (rng_randbelow r (b - a + 1)) as [z r1].
  intro E. inversion E. auto.
Qed.

(** The [while] loop of [sorted_attempt_times] ends with exactly [n]
    distinct offsets, drawn in [[1, max_seconds]]. *)
Lemma fill_offsets_ok {R} `{PyRandom R} f n mx chosen (r : R) res r' :
  fill_offsets f n mx chosen r = Ok (res, r') ->
  NoDup chosen -> Z.of_nat (length chosen) <= n ->
  NoDup res /\ Z.of_nat (length res) = n /\
  (randbelow_in_range R -> 0 < mx -> Forall (fun x => 1 <= x <= mx) chosen ->
   Forall (fun x => 1 <= x <= mx) res).
Proof.
  revert chosen r; induction f as [|f IH]; intros chosen r E Hnd Hlen; simpl in E.
  - destruct (Z.of_nat (length chosen) <? n) eqn:Hlt; [discriminate|].
    apply ret_ok in E as [<- _]. apply Z.ltb_ge in Hlt. repeat split; auto; lia.
  - destruct (Z.of_nat (length chosen) <? n) eqn:Hlt.
    + apply Z.ltb_lt in Hlt. inv_bind E.
      destruct (set_add_spec a chosen) as (Hs1 & Hs2 & Hs3 & Hs4).
      destruct (IH _ _ E (Hs1 Hnd) ltac:(lia)) as (H1 & H2 & H3).
      repeat split; auto. intros Hrng Hmx Hf. apply H3; auto.
      apply randint_ok in Hm as [-> _].
      specialize (Hrng r (mx - 1 + 1) ltac:(lia)).
      apply Forall_forall. intros y Hy. apply Hs4 in Hy as [->|Hy]; [lia|].
      rewrite Forall_forall in Hf. auto.
    + apply ret_ok in E as [<- _]. apply Z.ltb_ge in Hlt. repeat split; auto; lia.
Qed.

Lemma sorted_attempt_times_ok {R} `{PyRandom R} fuel base n (r : R) ts r' :
  sorted_attempt_times fuel base n r = Ok (ts, r') ->
  (n <= 0 -> ts = []) /\
  (0 < n -> Z.of_nat (length ts) = Z.min n (PAYMENT_WINDOW_SECONDS - 2)) /\
  strictly_increasing ts /\
  (randbelow_in_range R ->
   Forall (fun t => base < t <= base + PAYMENT_WINDOW_SECONDS - 2) ts).
Proof.
  unfold sorted_attempt_times. intro E.
  destruct (n <=? 0) eqn:Hn.
  - apply ret_ok in E as [<- _]. apply Z.leb_le in Hn. repeat split; auto; lia.
  - apply Z.leb_gt in Hn. cbv zeta in E. inv_bind E. apply ret_ok in E as [<- _].
    replace (Z.max 1 (PAYMENT_WINDOW_SECONDS - 2)) with (PAYMENT_WINDOW_SECONDS - 2) in Hm
      by reflexivity.
    destruct (fill_offsets_ok _ _ _ _ _ _ _ Hm (NoDup_nil _) ltac:(simpl; unfold PAYMENT_WINDOW_SECONDS; lia))
      as (H1 & H2 & H3).
    split; [lia|]. split.
    + intros _. rewrite length_map, (Permutation_length (sort_Z_perm a)). exact H2.
    + split; [now apply si_map_add, sort_Z_si|].
      intro Hrng. specialize (H3 Hrng ltac:(reflexivity) (Forall_nil _)).
      apply Forall_map.
      apply (Permutation_Forall (Permutation_sym (sort_Z_perm a))).
      refine (Forall_impl _ _ H3). intros x Hx. lia.
Qed.

Lemma draw_total_attempts_planned_ok {R} `{PyRandom R} (r : R) :
  exists n r', draw_total_attempts_planned r = Ok (n, r') /\ 1 <= n <= MAX_GLOBAL_ATTEMPTS.
Proof.
  unfold draw_total_attempts_planned.
  replace GLOBAL_ATTEMPT_WEIGHTS
    with (Ok [(1, (45#100)%Q); (2, (32#100)%Q); (3, (18#100)%Q); (4, (5#100)%Q)])
    by (vm_compute; reflexivity).
  pose proof (py_choices_spec [1; 2; 3; 4] [45#100; 32#100; 18#100; 5#100]%Q r
                eq_refl ltac:(discriminate)) as Hc.
  unfold lift, bind at 1, ret at 1. unfold weighted_choice_key. cbn [map fst snd].
  unfold bind at 1.
  destruct (py_choices [1; 2; 3; 4] [45#100; 32#100; 18#100; 5#100]%Q r) as [[k r1]|e].
  - destruct Hc as [_ Hin]. exists (Z.min k MAX_GLOBAL_ATTEMPTS), r1. split; [reflexivity|].
    unfold MAX_GLOBAL_ATTEMPTS. simpl in Hin. lia.
  - destruct Hc as [_ Hle]. vm_compute in Hle. exfalso. now apply Hle.
Qed.

(** X5: [draw_total_attempts_planned] never raises, whatever the
    generator: it returns a number of attempts between [1] and
    [MAX_GLOBAL_ATTEMPTS]. *)
Theorem draw_total_attempts_planned_range {R} `{PyRandom R} (r : R) :
  exists n r', draw_total_attempts_planned r = Ok (n, r') /\ 1 <= n <= MAX_GLOBAL_ATTEMPTS.
Proof. exact (draw_total_attempts_planned_ok r). Qed.

(** X6: [sorted_attempt_times] returns [[]] when [n_attempts <= 0];
    otherwise exactly [min(n_attempts, PAYMENT_WINDOW_SECONDS - 2)]
    times; they are strictly increasing, and with a generator whose
    [_randbelow(n)] draws in [[0, n)] each lies in
    [(base_dt, base_dt + PAYMENT_WINDOW_SECONDS - 2]]. *)
Theorem sorted_attempt_times_spec {R} `{PyRandom R} fuel base n (r : R) ts r'
  (E : sorted_attempt_times fuel base n r = Ok (ts, r')) :
  (n <= 0 -> ts = []) /\
  (0 < n -> Z.of_nat (length ts) = Z.min n (PAYMENT_WINDOW_SECONDS - 2)) /\
  strictly_increasing ts /\
  (randbelow_in_range R ->
   Forall (fun t => base < t <= base + PAYMENT_WINDOW_SECONDS - 2) ts).
Proof. exact (sorted_attempt_times_ok fuel base n r ts r' E). Qed.

Lemma sorted_attempt_times_spec_witness :
  let ts := [1000 + 7; 1000 + 500; 1000 + 90000] in
  sorted_attempt_times 10 1000 3 (Build_scripted [] [500 - 1; 7 - 1; 90000 - 1]) =
    Ok (ts, Build_scripted [] []) /\
  ((3 <= 0 -> ts = []) /\
   (0 < 3 -> Z.of_nat (length ts) = Z.min 3 (PAYMENT_WINDOW_SECONDS - 2)) /\
   strictly_increasing ts /\
   (randbelow_in_range scripted ->
    Forall (fun t => 1000 < t <= 1000 + PAYMENT_WINDOW_SECONDS - 2) ts)).
Proof.
  split; [vm_compute; reflexivity|].
  apply (sorted_attempt_times_spec 10 1000 3 (Build_scripted [] [500 - 1; 7 - 1; 90000 - 1])
           _ (Build_scripted [] [])).
  vm_compute. reflexivity.
Defined.

(** ** Dates and ids of the rows of one order *)

Lemma forced_date_gt o ts x : strictly_increasing ts -> In x ts -> x < forced_date o ts.
Proof.
  unfold forced_date. intros Hs Hin. destruct (rev ts) as [|z l] eqn:Hr.
  - apply (f_equal (@rev Z)) in Hr. rewrite rev_involutive in Hr. subst ts. destruct Hin.
  - apply (f_equal (@rev Z)) in Hr. rewrite rev_involutive in Hr. simpl in Hr. subst ts.
    apply si_app in Hs as (_ & _ & Hlt). apply in_app_or in Hin as [Hin|[<-|[]]].
    + specialize (Hlt x z Hin (or_introl eq_refl)). lia.
    + lia.
Qed.

Lemma forced_date_cases o ts :
  (ts = [] /\ forced_date o ts = order_date o + 1) \/
  exists z, In z ts /\ forced_date o ts = z + 1.
Proof.
  unfold forced_date. destruct (rev ts) as [|z l] eqn:Hr.
  - left. apply (f_equal (@rev Z)) in Hr. rewrite rev_involutive in Hr. auto.
  - right. exists z. split; [|reflexivity]. apply in_rev. rewrite Hr. now left.
Qed.

Section RowFacts.
Context {R : Type} `{PyRandom R}.
Variable config : list (string * method_cfg).
Variable method_id_by_code : list (string * Z).
Variable status_id_by_code : list (string * Z).
Variable fuel : nat.
Variable o : order_info.

Local Abbreviation attempt_bodyC := (@attempt_body R _ config method_id_by_code status_id_by_code o).
Local Abbreviation attempt_loopC := (@attempt_loop R _ config method_id_by_code status_id_by_code o).
Local Abbreviation finalizeC := (@finalize R method_id_by_code status_id_by_code o).

Local Abbreviation row_ids_okC := (row_ids_ok method_id_by_code status_id_by_code).

Lemma lookup_method_in m mid :
  lookup String.eqb m method_id_by_code = Some mid -> In mid (map snd method_id_by_code).
Proof.
  intro E. apply (lookup_In String.eqb String.eqb_eq) in E.
  change mid with (snd (m, mid)). now apply in_map.
Qed.

Lemma attempt_body_rows t st (r : R) c st' r' :
  attempt_bodyC t st r = Ok ((c, st'), r') ->
  ls_rows st' = ls_rows st \/
  exists x, ls_rows st' = ls_rows st ++ [x] /\ r_payment_date x = t /\ row_ids_okC x.
Proof.
  intro E.
  apply attempt_body_ok in E as [(_ & _ & _ & _ & Hr)|(m & cfg & r1 & _ & _ & E)]; [now left|].
  apply attempt_with_ok in E as (_ & _ & _ & E). simpl in E.
  destruct E as [(_ & _ & _ & Hr)|[(mid & f & Hm & Hf & _ & _ & Hr)|(mid & p & Hm & Hp & _ & _ & Hr)]].
  - now left.
  - right. eexists. split; [exact Hr|]. split; [reflexivity|].
    split; [exact (lookup_method_in _ _ Hm)|now right].
  - right. eexists. split; [exact Hr|]. split; [reflexivity|].
    split; [exact (lookup_method_in _ _ Hm)|now left].
Qed.

(** The loop appends rows dated by distinct later attempt times. *)
Lemma attempt_loop_dates ts st (r : R) st' r' :
  attempt_loopC ts st r = Ok (st', r') ->
  strictly_increasing (map r_payment_date (ls_rows st) ++ ts) ->
  exists new, ls_rows st' = ls_rows st ++ new /\
    strictly_increasing (map r_payment_date (ls_rows st')) /\
    incl (map r_payment_date new) ts /\ (length new <= length ts)%nat.
Proof.
  revert st r; induction ts as [|t ts IH]; intros st r E Hs; simpl in E.
  - apply ret_ok in E as [<- _]. exists []. rewrite app_nil_r in Hs |- *.
    split; [reflexivity|]. split; [exact Hs|]. split; [intros x []|simpl; lia].
  - destruct (ls_paid st).
    + apply ret_ok in E as [<- _]. exists []. rewrite app_nil_r.
      split; [reflexivity|]. split; [exact (si_app_l _ _ Hs)|]. split; [intros x []|simpl; lia].
    + inv_bind E. destruct a as [c st1].
      assert (Hd : (ls_rows st1 = ls_rows st /\
                    strictly_increasing (map r_payment_date (ls_rows st1) ++ ts)) \/
                   exists x, ls_rows st1 = ls_rows st ++ [x] /\ r_payment_date x = t /\
                    strictly_increasing (map r_payment_date (ls_rows st1) ++ ts)).
      { destruct (attempt_body_rows _ _ _ _ _ _ Hm) as [Hr|(x & Hr & Hx & _)]; rewrite Hr.
        - left. split; [reflexivity|]. exact (si_drop _ _ _ Hs).
        - right. exists x. split; [reflexivity|]. split; [exact Hx|].
          rewrite map_app, <- app_assoc. simpl. now rewrite Hx. }
      destruct c.
      * destruct Hd as [(Hr & Hs1)|(x & Hr & Hx & Hs1)].
        -- destruct (IH _ _ E Hs1) as (new & Hn1 & Hn2 & Hn3 & Hn4). exists new.
           split; [now rewrite Hn1, Hr|].
           split; [exact Hn2|]. split; [intros y Hy; right; auto|simpl; lia].
        -- destruct (IH _ _ E Hs1) as (new & Hn1 & Hn2 & Hn3 & Hn4). exists (x :: new).
           split; [now rewrite Hn1, Hr, <- app_assoc|].
           split; [exact Hn2|]. split; [|simpl; lia].
           intros y [<-|Hy]; [left; now rewrite Hx|right; auto].
      * apply ret_ok in E as [<- _].
        destruct Hd as [(Hr & Hs1)|(x & Hr & Hx & Hs1)].
        -- exists []. rewrite app_nil_r. split; [exact Hr|].
           split; [exact (si_app_l _ _ Hs1)|]. split; [intros y []|simpl; lia].
        -- exists [x]. split; [exact Hr|].
           split; [exact (si_app_l _ _ Hs1)|]. split; [|simpl; lia].
           intros y [<-|[]]. left. now rewrite Hx.
Qed.

Lemma finalize_rows times st (r : R) rows r' :
  finalizeC times st r = Ok (rows, r') ->
  rows = ls_rows st \/
  exists x, rows = ls_rows st ++ [x] /\ r_payment_date x = forced_date o times /\ row_ids_okC x.
Proof.
  unfold finalize. intro E.
  destruct (ls_paid st); [apply ret_ok in E as [<- _]; now left|].
  destruct (negb (order_status o =? CANCELLED_STATUS)); [|apply ret_ok in E as [<- _]; now left].
  inv_bind E. cbv zeta in E. inv_bind E. apply status_get_ok in Hm0 as [Hp _].
  apply ret_ok in E as [<- _]. right. eexists. split; [reflexivity|]. split; [reflexivity|].
  split; [|now left]. simpl.
  destruct (lookup String.eqb (ls_current st) method_id_by_code) as [i|] eqn:Hl.
  - apply ret_ok in Hm as [<- _]. exact (lookup_method_in _ _ Hl).
  - destruct method_id_by_code as [|[c i] rest]; [discriminate|].
    apply ret_ok in Hm as [<- _]. now left.
Qed.

Lemma simulate_order_dates (r : R) rows r' :
  simulate_order config method_id_by_code status_id_by_code fuel o r = Ok (rows, r') ->
  strictly_increasing (map r_payment_date rows) /\ (length rows <= 5)%nat /\
  (randbelow_in_range R ->
   Forall (fun d => order_date o < d < order_date o + PAYMENT_WINDOW_SECONDS)
     (map r_payment_date rows)).
Proof.
  unfold simulate_order. intro E.
  inv_bind E. inv_bind E. inv_bind E. inv_bind E.
  destruct (draw_total_attempts_planned_ok r) as (n & rd & Hd & Hn).
  rewrite Hd in Hm. injection Hm as <- <-.
  destruct (sorted_attempt_times_ok _ _ _ _ _ _ Hm0) as (_ & Ht1 & Ht2 & Ht3).
  specialize (Ht1 ltac:(lia)).
  destruct (attempt_loop_dates _ _ _ _ _ Hm2 Ht2) as (new & Hn1 & Hn2 & Hn3 & Hn4).
  simpl in Hn1. rewrite Hn1 in Hn2.
  assert (Hlen : (length a0 <= 4)%nat).
  { unfold MAX_GLOBAL_ATTEMPTS, PAYMENT_WINDOW_SECONDS in *. lia. }
  assert (Hwin : randbelow_in_range R ->
                 Forall (fun d => order_date o < d < order_date o + PAYMENT_WINDOW_SECONDS)
                   (map r_payment_date new)).
  { intro Hrng. specialize (Ht3 Hrng). rewrite Forall_forall in Ht3 |- *.
    intros d Hdn. specialize (Ht3 d (Hn3 d Hdn)). unfold PAYMENT_WINDOW_SECONDS in *. lia. }
  apply finalize_rows in E as [->|(x & -> & Hx & _)]; rewrite Hn1.
  - split; [exact Hn2|]. split; [lia|exact Hwin].
  - rewrite map_app. simpl. split; [|split].
    + apply strictly_increasing_snoc; [exact Hn2|].
      apply Forall_forall. intros y Hy. rewrite Hx. apply forced_date_gt; [exact Ht2|].
      now apply Hn3.
    + rewrite length_app. simpl. lia.
    + intro Hrng. apply Forall_app. split; [exact (Hwin Hrng)|].
      constructor; [|constructor]. rewrite Hx. specialize (Ht3 Hrng).
      destruct (forced_date_cases o a0) as [(-> & ->)|(z & Hz & ->)].
      * unfold PAYMENT_WINDOW_SECONDS. lia.
      * rewrite Forall_forall in Ht3. specialize (Ht3 z Hz). unfold PAYMENT_WINDOW_SECONDS in *. lia.
Qed.

Lemma simulate_order_ids (r : R) rows r' :
  simulate_order config method_id_by_code status_id_by_code fuel o r = Ok (rows, r') ->
  Forall row_ids_okC rows.
Proof.
  unfold simulate_order. intro E.
  inv_bind E. inv_bind E. inv_bind E. inv_bind E.
  assert (Hl : Forall row_ids_okC (ls_rows a2)).
  { refine (attempt_loop_preserves config method_id_by_code status_id_by_code o
              (fun st => Forall row_ids_okC (ls_rows st)) _ _ _ _ _ _ _ Hm2); [|constructor].
    intros t st rb c st' rb' Hf _ Eb.
    destruct (attempt_body_rows _ _ _ _ _ _ Eb) as [->|(x & -> & _ & Hx)]; [exact Hf|].
    apply Forall_app. auto. }
  apply finalize_rows in E as [->|(x & -> & _ & Hx)]; [exact Hl|].
  apply Forall_app. auto.
Qed.
End RowFacts.

(** X7: in the rows of a whole run (orders with distinct ids), the
    rows of each order have strictly increasing payment dates, there are
    at most [MAX_GLOBAL_ATTEMPTS + 1 = 5] of them, and with a generator
    whose [_randbelow(n)] draws in [[0, n)] every payment date lies
    strictly inside [(order_date, order_date + PAYMENT_WINDOW_SECONDS)],
    the forced success included. *)
Theorem order_payment_dates {R} `{PyRandom R}
  (config : list (string * method_cfg)) (method_id_by_code status_id_by_code : list (string * Z))
  (fuel : nat) (orders : list order_info) (r : R) (rows : list row) (r' : R)
  (o : order_info)
  (Hnd : NoDup (map order_id orders)) (Hin : In o orders)
  (Hrun : gen_rows config method_id_by_code status_id_by_code fuel orders r = Ok (rows, r')) :
  strictly_increasing (map r_payment_date (rows_of_order (order_id o) rows)) /\
  (length (rows_of_order (order_id o) rows) <= 5)%nat /\
  (randbelow_in_range R ->
   Forall (fun d => order_date o < d < order_date o + PAYMENT_WINDOW_SECONDS)
     (map r_payment_date (rows_of_order (order_id o) rows))).
Proof.
  destruct (gen_rows_segment _ _ _ _ _ _ _ _ _ Hnd Hin Hrun) as (r1 & r1' & E).
  exact (simulate_order_dates _ _ _ _ _ _ _ _ E).
Qed.

(** X8: every row of a run carries a [payment_method_id] that is a
    value of [method_id_by_code] and the status id of ['paid'] or of
    ['failed']. *)
Theorem payment_row_ids {R} `{PyRandom R}
  (config : list (string * method_cfg)) (method_id_by_code status_id_by_code : list (string * Z))
  (fuel : nat) (orders : list order_info) (r : R) (rows : list row) (r' : R)
  (Hrun : gen_rows config method_id_by_code status_id_by_code fuel orders r = Ok (rows, r')) :
  Forall (fun x => In (r_payment_method_id x) (map snd method_id_by_code) /\
    (lookup String.eqb "paid"%string status_id_by_code = Some (r_payment_status_id x) \/
     lookup String.eqb "failed"%string status_id_by_code = Some (r_payment_status_id x))) rows.
Proof.
  revert r rows r' Hrun; induction orders as [|o os IH]; intros r rows r' E; simpl in E.
  - apply ret_ok in E as [<- _]. constructor.
  - inv_bind E. inv_bind E. apply ret_ok in E as [<- _].
    apply Forall_app. split; [|exact (IH _ _ _ Hm0)].
    exact (simulate_order_ids _ _ _ _ _ _ _ _ Hm).
Qed.

(** The scripted generator keeps the contract of [_randbelow]. *)
Lemma scripted_randbelow_in_range : randbelow_in_range scripted.
Proof.
  intros r n Hn. simpl. destruct (sc_ints r) as [|z zs]; simpl; [lia|].
  apply Z.mod_pos_bound. exact Hn.
Qed.

Lemma order_payment_dates_witness :
  let rows := [Build_row 7 1 1011 0%Q 4 2; Build_row 7 2 1021 0%Q 4 2;
               Build_row 7 3 1022 (100#1) 4 1] in
  strictly_increasing (map r_payment_date (rows_of_order (order_id delivered_order) rows)) /\
  (length (rows_of_order (order_id delivered_order) rows) <= 5)%nat /\
  Forall (fun d => order_date delivered_order < d < order_date delivered_order + PAYMENT_WINDOW_SECONDS)
    (map r_payment_date (rows_of_order (order_id delivered_order) rows)).
Proof.
  cbv zeta.
  pose proof (order_payment_dates PAYMENT_METHOD_CONFIG all_method_ids example_status_ids 100
                [delivered_order] (Build_scripted [1#2; 99#100; 9#10; 1#10; 9#10]%Q [10; 20])
                [Build_row 7 1 1011 0%Q 4 2; Build_row 7 2 1021 0%Q 4 2;
                 Build_row 7 3 1022 (100#1) 4 1]
                (Build_scripted [] []) delivered_order
                ltac:(repeat constructor; simpl; tauto) ltac:(now left)
                ltac:(vm_compute; reflexivity)) as (H1 & H2 & H3).
  split; [exact H1|]. split; [exact H2|]. exact (H3 scripted_randbelow_in_range).
Defined.

Lemma payment_row_ids_witness :
  Forall (fun x => In (r_payment_method_id x) (map snd all_method_ids) /\
    (lookup String.eqb "paid"%string example_status_ids = Some (r_payment_status_id x) \/
     lookup String.eqb "failed"%string example_status_ids = Some (r_payment_status_id x)))
    [Build_row 7 1 1011 0%Q 4 2; Build_row 7 2 1021 0%Q 4 2; Build_row 7 3 1022 (100#1) 4 1].
Proof.
  apply (payment_row_ids PAYMENT_METHOD_CONFIG all_method_ids example_status_ids 100
           [delivered_order] (Build_scripted [1#2; 99#100; 9#10; 1#10; 9#10]%Q [10; 20])
           _ (Build_scripted [] [])).
  vm_compute. reflexivity.
Defined.

(** ** Batch insertion with a threshold that is not positive *)

Lemma batch_loop_zero rows fl buf t b :
  batch_loop 0 rows fl buf t b = (fl, buf ++ rows, t, b).
Proof.
  revert buf; induction rows as [|x rows IH]; intro buf; simpl.
  - now rewrite app_nil_r.
  - rewrite IH, <- app_assoc. reflexivity.
Qed.

Lemma batch_loop_neg bs rows fl t b : bs < 0 ->
  batch_loop bs rows fl [] t b =
  (fl ++ map (fun x => [x]) rows, [], t + Z.of_nat (length rows), b + Z.of_nat (length rows)).
Proof.
  intro Hbs. revert fl t b; induction rows as [|x rows IH]; intros fl t b; simpl.
  - rewrite app_nil_r, !Z.add_0_r. reflexivity.
  - replace (negb (bs =? 0) && (bs <=? 1)) with true
      by (symmetry; apply andb_true_iff; split; [apply negb_true_iff, Z.eqb_neq|apply Z.leb_le]; lia).
    rewrite IH, <- app_assoc. simpl.
    replace (t + 1 + Z.of_nat (length rows)) with (t + Z.pos (Pos.of_succ_nat (length rows))) by lia.
    replace (b + 1 + Z.of_nat (length rows)) with (b + Z.pos (Pos.of_succ_nat (length rows))) by lia.
    reflexivity.
Qed.

(** X9: with [batch_size = 0] the buffer is never flushed inside the
    loop: a non-empty list of rows goes to storage as one chunk and the
    result is [(len(rows), 1)]; with a negative [batch_size] the test
    [len(buf) >= batch_size] always holds, so every row goes in a chunk
    of its own and the result is [(len(rows), len(rows))]. *)
Theorem insert_payments_in_batches_nonpositive (rows : list row) (Hne : rows <> []) :
  insert_payments_in_batches rows 0 = ([rows], (Z.of_nat (length rows), 1)) /\
  (forall bs, bs < 0 -> insert_payments_in_batches rows bs =
     (map (fun x => [x]) rows, (Z.of_nat (length rows), Z.of_nat (length rows)))).
Proof.
  destruct rows as [|x rs]; [congruence|]. split.
  - unfold insert_payments_in_batches. rewrite batch_loop_zero. reflexivity.
  - intros bs Hbs. unfold insert_payments_in_batches. rewrite batch_loop_neg by exact Hbs.
    reflexivity.
Qed.

Lemma insert_payments_in_batches_nonpositive_witness :
  let rows := map (fun i => Build_row 1 i i 0%Q 1 1) [1; 2; 3] in
  insert_payments_in_batches rows 0 = ([rows], (Z.of_nat (length rows), 1)) /\
  (forall bs, bs < 0 -> insert_payments_in_batches rows bs =
     (map (fun x => [x]) rows, (Z.of_nat (length rows), Z.of_nat (length rows)))).
Proof.
  apply insert_payments_in_batches_nonpositive. discriminate.
Defined.

(** ** Choice of the next method *)

Lemma list_remove_other x y l : In y l -> y <> x -> In y (list_remove x l).
Proof.
  induction l as [|z l IH]; simpl; [tauto|].
  intros [->|Hin] Hne.
  - destruct (String.eqb_spec x y); [congruence|now left].
  - destruct (String.eqb x z); [exact Hin|right; auto].
Qed.

Lemma list_remove_NoDup_neq x y l : NoDup l -> In y (list_remove x l) -> y <> x.
Proof.
  induction l as [|z l IH]; simpl; [tauto|].
  intros Hnd Hin. inversion Hnd as [|? ? Hn Hnd']; subst.
  destruct (String.eqb_spec x z) as [Hxz|Hxz].
  - subst z. intros ->. contradiction.
  - destruct Hin as [<-|Hin]; [intros ->; now apply Hxz|auto].
Qed.

Lemma NoDup_map_fst_filter {A B} (p : A * B -> bool) (l : list (A * B)) :
  NoDup (map fst l) -> NoDup (map fst (filter p l)).
Proof.
  induction l as [|[a b] l IH]; simpl; [auto|].
  intro Hnd. inversion Hnd as [|? ? Hn Hnd']; subst.
  destruct (p (a, b)); simpl; [|auto]. constructor; [|auto].
  intro Hin. apply Hn. apply in_map_iff in Hin as [[a' b'] [Ha Hin]]. simpl in Ha. subst a'.
  apply filter_In in Hin as [Hin _]. change a with (fst (a, b')). now apply in_map.
Qed.

(** X10: [pick_next_method] (with the method names of the config
    distinct, as dict keys are) either keeps [current] or switches to
    another configured method that is still under its cap; it keeps
    [current] after [current] reached its cap only when every other
    configured method has reached its cap too. *)
Theorem pick_next_method_result {R} `{PyRandom R} (config : list (string * method_cfg))
  (current : string) (counts : string -> Z) (r : R) (m : string) (r' : R)
  (Hnd : NoDup (map fst config))
  (E : pick_next_method config current counts r = Ok (m, r')) :
  (m = current /\
   (cap_of (match lookup String.eqb current config with Some c => c | None => empty_cfg end)
      <= counts current ->
    forall m' c', In (m', c') config -> m' <> current -> cap_of c' <= counts m')) \/
  (m <> current /\ exists c, lookup String.eqb m config = Some c /\ counts m < cap_of c).
Proof.
  unfold pick_next_method in E.
  set (c0 := match lookup String.eqb current config with Some c => c | None => empty_cfg end) in *.
  inv_bind E.
  assert (Hstay : a = true -> counts current < cap_of c0).
  { intro Ha. subst a. destruct (Z.leb_spec (cap_of c0) (counts current)) as [Hle|Hlt]; [|exact Hlt].
    apply ret_ok in Hm as [Hm _]. discriminate. }
  destruct a.
  - apply ret_ok in E as [<- _]. left. split; [reflexivity|].
    intro Hc. specialize (Hstay eq_refl). lia.
  - assert (Havail : forall m' c', In (m', c') config -> m' <> current ->
                       counts m' < cap_of c' ->
                       In m' (list_remove current (available_methods_by_cap config counts))).
    { intros m' c' Hin Hne Hlt. apply list_remove_other; [|exact Hne].
      unfold available_methods_by_cap. change m' with (fst (m', c')). apply in_map.
      apply filter_In. split; [exact Hin|]. now apply Z.ltb_lt. }
    destruct (list_remove current (available_methods_by_cap config counts)) as [|s l] eqn:Hl.
    + apply ret_ok in E as [<- _]. left. split; [reflexivity|].
      intros _ m' c' Hin Hne. destruct (Z.lt_ge_cases (counts m') (cap_of c')) as [Hlt|Hge]; [|exact Hge].
      destruct (Havail m' c' Hin Hne Hlt).
    + inv_bind E. apply weights_for_ok in Hm0. apply weighted_choice_key_in in E.
      rewrite Hm0, <- Hl in E. right.
      assert (HndA : NoDup (available_methods_by_cap config counts))
        by (apply NoDup_map_fst_filter, Hnd).
      split; [exact (list_remove_NoDup_neq _ _ _ HndA E)|].
      apply list_remove_incl in E. unfold available_methods_by_cap in E.
      apply in_map_iff in E as [[m' c] [Hm' Hin]]. simpl in Hm'. subst m'.
      apply filter_In in Hin as [Hin Hlt]. apply Z.ltb_lt in Hlt.
      exists c. split; [|exact Hlt].
      apply (lookup_NoDup String.eqb String.eqb_eq); [exact Hnd|exact Hin].
Qed.

Lemma pick_next_method_result_witness :
  ("mbway"%string = "card"%string /\
   (cap_of (match lookup String.eqb "card"%string PAYMENT_METHOD_CONFIG with
            | Some c => c | None => empty_cfg end) <= incr_count (fun _ => 0) "card"%string "card"%string ->
    forall m' c', In (m', c') PAYMENT_METHOD_CONFIG -> m' <> "card"%string ->
      cap_of c' <= incr_count (fun _ => 0) "card"%string m')) \/
  ("mbway"%string <> "card"%string /\
   exists c, lookup String.eqb "mbway"%string PAYMENT_METHOD_CONFIG = Some c /\
     incr_count (fun _ => 0) "card"%string "mbway"%string < cap_of c).
Proof.
  apply (pick_next_method_result PAYMENT_METHOD_CONFIG "card"%string
           (incr_count (fun _ => 0) "card"%string) (Build_scripted [9#10; 3#5]%Q [])
           "mbway"%string (Build_scripted [] [])).
  - vm_compute. repeat constructor; simpl; intuition discriminate.
  - vm_compute. reflexivity.
Defined.

(** ** Product weights ([product_weights] of [insert_order_items.py]) *)

Lemma dict_set_in {K V} (eqb : K -> K -> bool) k v (d : list (K * V)) kv :
  In kv (dict_set eqb k v d) -> kv = (k, v) \/ In kv d.
Proof.
  induction d as [|[k0 v0] d IH]; simpl; [intuition|].
  destruct (eqb k k0); simpl; intros [E|E].
  - left; congruence.
  - tauto.
  - tauto.
  - destruct (IH E); tauto.
Qed.

Lemma dict_fold_in {A K V} (eqb : K -> K -> bool) (f : A -> K * V) xs d kv :
  In kv (fold_left (fun d x => let '(k, v) := f x in dict_set eqb k v d) xs d) ->
  In kv d \/ In kv (map f xs).
Proof.
  revert d; induction xs as [|x xs IH]; intros d Hin; simpl in *; [now left|].
  destruct (IH _ Hin) as [H1|H1]; [|tauto].
  destruct (f x) as [k v] eqn:Hf. apply dict_set_in in H1 as [->|H1]; intuition.
Qed.

Lemma dict_comp_in {A K V} (eqb : K -> K -> bool) (f : A -> K * V) xs kv :
  In kv (dict_comp eqb f xs) -> In kv (map f xs).
Proof. unfold dict_comp. intro Hin. now apply dict_fold_in in Hin as [[]|Hin]. Qed.

Lemma dict_fold_keys_mono {A K V} (eqb : K -> K -> bool)
  (eqb_spec : forall x y, eqb x y = true <-> x = y) (f : A -> K * V) xs d k :
  In k (map fst d) ->
  In k (map fst (fold_left (fun d x => let '(k, v) := f x in dict_set eqb k v d) xs d)).
Proof.
  revert d; induction xs as [|x xs IH]; intros d Hin; simpl; [exact Hin|].
  apply IH. destruct (f x) as [k0 v0]. apply (dict_set_keys_in eqb eqb_spec). now right.
Qed.

Lemma dict_comp_keys {A K V} (eqb : K -> K -> bool)
  (eqb_spec : forall x y, eqb x y = true <-> x = y) (f : A -> K * V) xs k :
  In k (map fst (map f xs)) -> In k (map fst (dict_comp eqb f xs)).
Proof.
  unfold dict_comp. generalize (@nil (K * V)).
  induction xs as [|x xs IH]; intros d Hin; simpl in *; [tauto|].
  destruct Hin as [Hk|Hin]; [|now apply IH].
  apply (dict_fold_keys_mono eqb eqb_spec). destruct (f x) as [k0 v0]. simpl in Hk.
  apply (dict_set_keys_in eqb eqb_spec). now left.
Qed.

Lemma pw_fold_comp (g : product -> Q) (ps : list product) :
  fold_left (fun weights p => let w := g p in dict_set Z.eqb (p_product_id p) w weights) ps [] =
  dict_comp Z.eqb (fun p => (p_product_id p, g p)) ps.
Proof. reflexivity. Qed.

Lemma CATEGORY_WEIGHTS_pos : Forall (fun kv => 0 < snd kv)%Q CATEGORY_WEIGHTS.
Proof. repeat constructor. Qed.

Lemma product_weights_pos products category_names (dw : Q) :
  (0 < dw)%Q -> Forall (fun kv => 0 < snd kv)%Q (product_weights products category_names dw).
Proof.
  intro Hdw. unfold product_weights. rewrite pw_fold_comp.
  apply Forall_forall. intros kv Hin. apply dict_comp_in in Hin.
  apply in_map_iff in Hin as [p [<- _]]. cbn [snd].
  destruct (lookup Z.eqb (p_category_id p) category_names) as [cat|]; [|exact Hdw].
  destruct (lookup String.eqb cat CATEGORY_WEIGHTS) as [w|] eqn:Hw; [|exact Hdw].
  apply (lookup_In String.eqb String.eqb_eq) in Hw.
  exact (proj1 (Forall_forall _ _) CATEGORY_WEIGHTS_pos _ Hw).
Qed.

(** X11: [product_weights] has one key per product id of [products]
    (the ids of [products.values()], without repetition); the weight of
    a key is [CATEGORY_WEIGHTS] of the product's category name when the
    category has a name listed there, and [default_weight] otherwise;
    with [default_weight > 0] every weight is [> 0]. *)
Theorem product_weights_spec (products : list (Z * product)) (category_names : list (Z * string))
  (default_weight : Q) :
  let weights := product_weights products category_names default_weight in
  NoDup (map fst weights) /\
  (forall pid, In pid (map fst weights) <-> In pid (map (fun kp => p_product_id (snd kp)) products)) /\
  (forall pid w, lookup Z.eqb pid weights = Some w ->
     exists p, In p (map snd products) /\ p_product_id p = pid /\
       ((exists cat, lookup Z.eqb (p_category_id p) category_names = Some cat /\
                     lookup String.eqb cat CATEGORY_WEIGHTS = Some w) \/
        (w = default_weight /\
         forall cat, lookup Z.eqb (p_category_id p) category_names = Some cat ->
                     lookup String.eqb cat CATEGORY_WEIGHTS = None))) /\
  ((0 < default_weight)%Q -> Forall (fun kv => 0 < snd kv)%Q weights).
Proof.
  cbv zeta. split; [|split; [|split]].
  - unfold product_weights. rewrite pw_fold_comp. apply dict_comp_NoDup, Z.eqb_eq.
  - intro pid. split.
    + intro Hin. destruct (lookup_key_in Z.eqb Z.eqb_eq pid _ Hin) as [w Hw].
      unfold product_weights in Hw. rewrite pw_fold_comp, (dict_comp_lookup Z.eqb Z.eqb_eq) in Hw.
      apply (lookup_In Z.eqb Z.eqb_eq), in_rev, in_map_iff in Hw as [p [Hp Hin']].
      injection Hp as <- _. rewrite <- map_map. now apply in_map.
    + intro Hin. unfold product_weights. rewrite pw_fold_comp.
      apply (dict_comp_keys Z.eqb Z.eqb_eq). now rewrite map_map, map_map.
  - intros pid w Hw. unfold product_weights in Hw.
    rewrite pw_fold_comp, (dict_comp_lookup Z.eqb Z.eqb_eq) in Hw.
    apply (lookup_In Z.eqb Z.eqb_eq), in_rev, in_map_iff in Hw as [p [Hp Hin]].
    exists p. split; [exact Hin|].
    destruct (lookup Z.eqb (p_category_id p) category_names) as [cat|] eqn:Hc.
    + destruct (lookup String.eqb cat CATEGORY_WEIGHTS) as [w'|] eqn:Hcw;
        injection Hp as Hid Hw; (split; [exact Hid|]).
      * left. exists cat. split; [reflexivity|]. congruence.
      * right. split; [congruence|]. intros cat' E. injection E as <-. exact Hcw.
    + injection Hp as Hid Hw. split; [exact Hid|].
      right. split; [congruence|]. discriminate.
  - apply product_weights_pos.
Qed.

(** ** Generation of order items *)

Lemma bind_step {R} `{PyRandom R} {A B} (m : @M R A) (k : A -> @M R B) (r : R) a r1 :
  m r = Ok (a, r1) -> bind m k r = k a r1.
Proof. unfold bind. now intros ->. Qed.

Lemma choose_weighted_key_in {R} `{PyRandom R} (ws : list (Z * Q)) (r : R) k r' :
  choose_weighted_key ws r = Ok (k, r') -> In k (map fst ws).
Proof. intro E. apply (weighted_choice_key_in ws r k r'). destruct ws; exact E. Qed.

Lemma choose_weighted_key_total {R} `{PyRandom R} (ws : list (Z * Q)) (r : R) :
  ws <> [] -> Forall (fun kv => 0 < snd kv)%Q ws ->
  exists k r', choose_weighted_key ws r = Ok (k, r').
Proof.
  intros Hne Hpos. unfold choose_weighted_key.
  destruct ws as [|kv ws'] eqn:Hw; [congruence|]. rewrite <- Hw.
  pose proof (py_choices_spec (map fst ws) (map snd ws) r
                ltac:(now rewrite !length_map) ltac:(now rewrite Hw)) as Hc.
  assert (Hs : (0 < py_sum (map snd ws))%Q).
  { apply py_sum_pos; [now rewrite Hw|]. rewrite Hw. now apply Forall_map. }
  destruct (py_choices (map fst ws) (map snd ws) r) as [[k r']|e]; [eauto|].
  destruct Hc as [_ Hle]. exfalso. exact (Qlt_not_le _ _ Hs Hle).
Qed.

Lemma CART_SIZE_WEIGHTS_ok : exists cw, CART_SIZE_WEIGHTS = Ok cw /\
  map fst cw = [1; 2; 3; 4; 5; 6] /\ Forall (fun kv => 0 < snd kv)%Q cw.
Proof.
  eexists. split; [vm_compute; reflexivity|]. split; [reflexivity|]. repeat constructor.
Qed.

Lemma QTY_WEIGHTS_ok : exists qw, QTY_WEIGHTS = Ok qw /\
  map fst qw = [1; 2; 3; 4] /\ Forall (fun kv => 0 < snd kv)%Q qw.
Proof.
  eexists. split; [vm_compute; reflexivity|]. split; [reflexivity|]. repeat constructor.
Qed.

Lemma items_for_ok {R} `{PyRandom R} oid products pids (r : R) :
  incl pids (map fst products) ->
  exists its r', items_for oid products pids r = Ok (its, r') /\
    map it_product_id its = pids /\
    Forall (fun it => it_order_id it = oid /\ 1 <= it_quantity it <= 4 /\
      exists p, lookup Z.eqb (it_product_id it) products = Some p /\
                it_unit_price it = p_price p) its.
Proof.
  destruct QTY_WEIGHTS_ok as (qw & Hqw & Hqk & Hqp).
  revert r; induction pids as [|pid pids IH]; intros r Hincl; cbn [items_for].
  - exists [], r. split; [reflexivity|]. split; constructor.
  - rewrite (bind_step _ _ r qw r) by (unfold lift; now rewrite Hqw).
    destruct (choose_weighted_key_total qw r ltac:(now destruct qw) Hqp) as (q & r1 & Eq).
    rewrite (bind_step _ _ r q r1) by exact Eq.
    pose proof (choose_weighted_key_in _ _ _ _ Eq) as Hq. rewrite Hqk in Hq.
    destruct (lookup_key_in Z.eqb Z.eqb_eq pid products (Hincl pid (or_introl eq_refl)))
      as [p Hp].
    rewrite (bind_step _ _ r1 (p_price p) r1) by (rewrite Hp; reflexivity).
    destruct (IH r1 (fun x Hx => Hincl x (or_intror Hx))) as (its & r2 & E2 & Hm & Hf).
    rewrite (bind_step _ _ r1 its r2) by exact E2.
    exists (Build_item oid pid (Z.max 1 q) (p_price p) :: its), r2.
    split; [reflexivity|]. split; [simpl; now f_equal|].
    constructor; [|exact Hf]. cbn [it_order_id it_quantity it_product_id it_unit_price].
    split; [reflexivity|]. split; [|eauto].
    destruct Hq as [<-|[<-|[<-|[<-|[]]]]]; lia.
Qed.

Lemma sample_positive_ok {R} `{PyRandom R} (candidate_ids : list Z) (weights_map : list (Z * Q))
  (k : Z) (r : R) :
  NoDup candidate_ids -> (forall pid, 0 < product_weight weights_map pid)%Q -> 1 <= k ->
  exists res r', sample_unique_products_weighted candidate_ids weights_map k r = Ok (res, r') /\
    NoDup res /\ incl res candidate_ids /\
    Z.of_nat (length res) = Z.min k (Z.of_nat (length candidate_ids)).
Proof.
  intros Hnd Hw Hk. unfold sample_unique_products_weighted.
  destruct ((k <=? 0) || match candidate_ids with [] => true | _ => false end) eqn:Hg.
  - pose proof (sample_guard_true _ _ Hg) as H0. exists [], r.
    split; [reflexivity|]. split; [constructor|]. split; [intros x []|]. simpl. lia.
  - destruct (sample_guard_false _ _ Hg) as [_ Hc]. cbv zeta.
    assert (Hn : (Z.to_nat (Z.min k (Z.of_nat (length candidate_ids))) <= length candidate_ids)%nat)
      by lia.
    assert (Hpos : forall l, l <> [] -> (0 < py_sum (map (product_weight weights_map) l))%Q).
    { intros l Hl. apply py_sum_pos; [now destruct l|].
      apply Forall_map, Forall_forall. intros x _. apply Hw. }
    destruct (sample_loop_total weights_map _ candidate_ids [] r Hn (or_intror (Hpos _ Hc)))
      as (res & r' & E).
    exists res, r'. split; [exact E|].
    destruct (sample_loop_ok weights_map _ candidate_ids [] r res r' Hn E) as (rest & Hp & Hl & Hs).
    simpl in Hp, Hl, Hs.
    assert (Hnd' : NoDup (res ++ rest)) by exact (Permutation_NoDup Hp Hnd).
    split; [exact (NoDup_app_remove_r _ _ Hnd')|].
    split; [intros x Hx; apply (Permutation_in x (Permutation_sym Hp)), in_or_app; now left|].
    destruct (Nat.lt_ge_cases (length res) (Z.to_nat (Z.min k (Z.of_nat (length candidate_ids)))))
      as [Hlt|Hge].
    + destruct (Hs Hlt) as [Hne Hsum]. exfalso. exact (Qlt_not_le _ _ (Hpos _ Hne) Hsum).
    + lia.
Qed.

Lemma product_weight_pos (weights_map : list (Z * Q)) :
  Forall (fun kv => 0 < snd kv)%Q weights_map -> forall pid, (0 < product_weight weights_map pid)%Q.
Proof.
  intros Hf pid. unfold product_weight.
  destruct (lookup Z.eqb pid weights_map) as [w|] eqn:E; [|reflexivity].
  apply (lookup_In Z.eqb Z.eqb_eq) in E. exact (proj1 (Forall_forall _ _) Hf _ E).
Qed.

Lemma gen_items_ok {R} `{PyRandom R} products weights_map order_ids (r : R) :
  NoDup (map fst products) -> (forall pid, 0 < product_weight weights_map pid)%Q ->
  exists blocks r',
    gen_items products (map fst products) weights_map order_ids r = Ok (concat blocks, r') /\
    Forall2 (fun oid block =>
      NoDup (map it_product_id block) /\
      (exists cart_size, 1 <= cart_size <= 6 /\
         Z.of_nat (length block) = Z.min cart_size (Z.of_nat (length products))) /\
      Forall (fun it => it_order_id it = oid /\ 1 <= it_quantity it <= 4 /\
        exists p, lookup Z.eqb (it_product_id it) products = Some p /\
                  it_unit_price it = p_price p) block) order_ids blocks.
Proof.
  intros Hnd Hw. destruct CART_SIZE_WEIGHTS_ok as (cw & Hcw & Hck & Hcp).
  revert r; induction order_ids as [|oid oids IH]; intro r; cbn [gen_items].
  - exists [], r. split; [reflexivity|constructor].
  - rewrite (bind_step _ _ r cw r) by (unfold lift; now rewrite Hcw).
    destruct (choose_weighted_key_total cw r ltac:(now destruct cw) Hcp) as (cs & r1 & Ec).
    rewrite (bind_step _ _ r cs r1) by exact Ec.
    pose proof (choose_weighted_key_in _ _ _ _ Ec) as Hcs. rewrite Hck in Hcs.
    assert (Hcs' : 1 <= cs <= 6) by (destruct Hcs as [<-|[<-|[<-|[<-|[<-|[<-|[]]]]]]]; lia).
    destruct (sample_positive_ok (map fst products) weights_map cs r1 Hnd Hw ltac:(lia))
      as (chosen & r2 & Es & Hndc & Hinc & Hlen).
    rewrite (bind_step _ _ r1 chosen r2) by exact Es.
    destruct (items_for_ok oid products chosen r2 Hinc) as (its & r3 & Ei & Hm & Hf).
    rewrite (bind_step _ _ r2 its r3) by exact Ei.
    destruct (IH r3) as (blocks & r4 & Eg & Hb).
    rewrite (bind_step _ _ r3 (concat blocks) r4) by exact Eg.
    exists (its :: blocks), r4. split; [reflexivity|].
    constructor; [|exact Hb]. split; [now rewrite Hm|]. split; [|exact Hf].
    exists cs. split; [exact Hcs'|]. rewrite <- (length_map it_product_id), Hm, Hlen, length_map.
    reflexivity.
Qed.

(** X12: with every weight [> 0] and distinct candidates, the protection
    [break] of [sample_unique_products_weighted] never fires: for
    [k >= 1] the call returns exactly [min(k, len(candidate_ids))]
    distinct candidates. *)
Theorem sample_unique_products_weighted_positive {R} `{PyRandom R}
  (candidate_ids : list Z) (weights_map : list (Z * Q)) (k : Z) (r : R)
  (Hnd : NoDup candidate_ids)
  (Hw : forall pid, (0 < product_weight weights_map pid)%Q)
  (Hk : 1 <= k) :
  exists res r', sample_unique_products_weighted candidate_ids weights_map k r = Ok (res, r') /\
    NoDup res /\ incl res candidate_ids /\
    Z.of_nat (length res) = Z.min k (Z.of_nat (length candidate_ids)).
Proof. exact (sample_positive_ok candidate_ids weights_map k r Hnd Hw Hk). Qed.

Lemma sample_unique_products_weighted_positive_witness :
  exists res r', sample_unique_products_weighted [10; 20; 30] [(10, (1#2)%Q)] 2
                   (Build_scripted [9#10; 0]%Q []) = Ok (res, r') /\
    NoDup res /\ incl res [10; 20; 30] /\ Z.of_nat (length res) = Z.min 2 (Z.of_nat 3).
Proof.
  apply (sample_unique_products_weighted_positive [10; 20; 30] [(10, (1#2)%Q)] 2
           (Build_scripted [9#10; 0]%Q [])).
  - repeat constructor; simpl; intuition discriminate.
  - apply product_weight_pos. repeat constructor.
  - lia.
Defined.

(** X13: the generation loop of [run] (weights [product_weights(products,
    category_names)] with [default_weight = 1.0], candidates the keys of
    [products], taken with distinct keys as a dict has them) never
    raises; the items it buffers are, order after order, blocks of
    [min(cart_size, len(products))] rows for a [cart_size] in [1..6], with
    distinct products within an order, each row carrying its order id,
    a quantity in [1..4] and the price of its product in [products]. *)
Theorem run_order_items_spec {R} `{PyRandom R} (products : list (Z * product))
  (category_names : list (Z * string)) (order_ids : list Z) (r : R)
  (Hnd : NoDup (map fst products)) :
  exists blocks r',
    run_order_items products category_names order_ids r = Ok (concat blocks, r') /\
    Forall2 (fun oid block =>
      NoDup (map it_product_id block) /\
      (exists cart_size, 1 <= cart_size <= 6 /\
         Z.of_nat (length block) = Z.min cart_size (Z.of_nat (length products))) /\
      Forall (fun it => it_order_id it = oid /\ 1 <= it_quantity it <= 4 /\
        exists p, lookup Z.eqb (it_product_id it) products = Some p /\
                  it_unit_price it = p_price p) block) order_ids blocks.
Proof.
  unfold run_order_items. apply gen_items_ok; [exact Hnd|].
  apply product_weight_pos, product_weights_pos. reflexivity.
Qed.

Lemma run_order_items_spec_witness :
  exists blocks r',
    run_order_items [(1, Build_product 1 (10#1) 3); (2, Build_product 2 (25#1) 4)]
      [(3, "Books"%string)] [100; 101] (Build_scripted [1#2; 1#3; 9#10] []) = Ok (concat blocks, r') /\
    Forall2 (fun oid block =>
      NoDup (map it_product_id block) /\
      (exists cart_size, 1 <= cart_size <= 6 /\
         Z.of_nat (length block) = Z.min cart_size (Z.of_nat 2)) /\
      Forall (fun it => it_order_id it = oid /\ 1 <= it_quantity it <= 4 /\
        exists p, lookup Z.eqb (it_product_id it)
                    [(1, Build_product 1 (10#1) 3); (2, Build_product 2 (25#1) 4)] = Some p /\
                  it_unit_price it = p_price p) block) [100; 101] blocks.
Proof.
  apply (run_order_items_spec [(1, Build_product 1 (10#1) 3); (2, Build_product 2 (25#1) 4)]
           [(3, "Books"%string)] [100; 101] (Build_scripted [1#2; 1#3; 9#10] [])).
  repeat constructor; simpl; intuition discriminate.
Defined.

(** ** Batch insertion of order items *)

Lemma items_batch_loop_inv bs rows fl buf total batches :
  0 < bs -> Z.of_nat (length buf) < bs ->
  Forall (fun c => Z.of_nat (length c) = bs) fl ->
  total = Z.of_nat (length (concat fl)) -> batches = Z.of_nat (length fl) ->
  let '(fl', buf', total', batches') := items_batch_loop bs rows fl buf total batches in
  concat fl' ++ buf' = concat fl ++ buf ++ rows /\
  Forall (fun c => Z.of_nat (length c) = bs) fl' /\
  Z.of_nat (length buf') < bs /\
  total' = Z.of_nat (length (concat fl')) /\ batches' = Z.of_nat (length fl').
Proof.
  revert fl buf total batches.
  induction rows as [|x rows IH]; intros fl buf total batches Hbs Hbuf Hfl Ht Hb; simpl.
  - rewrite app_nil_r. auto.
  - rewrite length_app. simpl length.
    destruct (negb (bs =? 0) && (bs <=? Z.of_nat (length buf + 1))) eqn:E.
    + apply andb_true_iff in E as [_ E]. apply Z.leb_le in E.
      assert (Hfl' : Forall (fun c => Z.of_nat (length c) = bs) (fl ++ [buf ++ [x]])).
      { apply Forall_app. split; auto. constructor; [|constructor].
        rewrite length_app. simpl. lia. }
      assert (Ht' : total + Z.of_nat (length (buf ++ [x]))
                    = Z.of_nat (length (concat (fl ++ [buf ++ [x]])))).
      { rewrite concat_app, !length_app. simpl. rewrite !app_nil_r, !length_app. simpl. lia. }
      assert (Hb' : batches + 1 = Z.of_nat (length (fl ++ [buf ++ [x]]))).
      { rewrite length_app. simpl. lia. }
      specialize (IH (fl ++ [buf ++ [x]]) [] (total + Z.of_nat (length (buf ++ [x])))
                     (batches + 1) Hbs ltac:(simpl; lia) Hfl' Ht' Hb').
      rewrite length_app in IH. simpl length in IH.
      destruct (items_batch_loop bs rows (fl ++ [buf ++ [x]]) [] _ _) as [[[fl' buf'] t'] b'].
      destruct IH as (IH1 & IH2 & IH3 & IH4 & IH5).
      repeat split; auto. rewrite IH1, concat_app. simpl.
      rewrite app_nil_r, <- !app_assoc. reflexivity.
    + assert (Hlt : Z.of_nat (length (buf ++ [x])) < bs).
      { rewrite length_app. simpl length.
        apply andb_false_iff in E as [E|E].
        - apply negb_false_iff, Z.eqb_eq in E. lia.
        - apply Z.leb_gt in E. lia. }
      specialize (IH fl (buf ++ [x]) total batches Hbs Hlt Hfl Ht Hb).
      destruct (items_batch_loop bs rows fl (buf ++ [x]) total batches) as [[[fl' buf'] t'] b'].
      destruct IH as (IH1 & IH2 & IH3 & IH4 & IH5).
      repeat split; auto. rewrite IH1, <- app_assoc. reflexivity.
Qed.

Lemma concat_full_length {A} (bs : Z) (fl : list (list A)) :
  Forall (fun c => Z.of_nat (length c) = bs) fl ->
  Z.of_nat (length (concat fl)) = bs * Z.of_nat (length fl).
Proof.
  induction 1 as [|c fl Hc Hfl IH]; simpl; [lia|].
  rewrite length_app. lia.
Qed.

(** X14: for a positive [batch_size], [insert_items_in_batches] hands
    the rows to storage in order, as full chunks of exactly [batch_size]
    rows followed by at most one last chunk of fewer rows (never an
    empty one), and returns [(len(rows), ceil(len(rows) / batch_size))]. *)
Theorem insert_items_in_batches_spec (rows : list item) (batch_size : Z)
  (Hbs : 0 < batch_size) :
  let '(chunks, (total, batches)) := insert_items_in_batches rows batch_size in
  concat chunks = rows /\
  (exists full last, chunks = full ++ last /\
     Forall (fun c => Z.of_nat (length c) = batch_size) full /\
     (last = [] \/ exists c, last = [c] /\ 0 < Z.of_nat (length c) < batch_size)) /\
  total = Z.of_nat (length rows) /\ batches = Z.of_nat (length chunks) /\
  batches = (Z.of_nat (length rows) + batch_size - 1) / batch_size.
Proof.
  destruct rows as [|r0 rs].
  - simpl. split; [reflexivity|]. split; [exists [], []; auto|]. split; [reflexivity|].
    split; [reflexivity|]. symmetry. apply Z.div_small. lia.
  - set (rows := r0 :: rs).
    assert (Heq : insert_items_in_batches rows batch_size =
              let '(flushed, buf, total, batches) := items_batch_loop batch_size rows [] [] 0 0 in
              match buf with
              | [] => (flushed, (total, batches))
              | _ => (flushed ++ [buf], (total + Z.of_nat (length buf), batches + 1))
              end) by reflexivity.
    rewrite Heq. clearbody rows. clear Heq.
    pose proof (items_batch_loop_inv batch_size rows [] [] 0 0 Hbs ltac:(simpl; lia)
                  (Forall_nil _) eq_refl eq_refl) as Hinv.
    destruct (items_batch_loop batch_size rows [] [] 0 0) as [[[fl buf] t] b] eqn:Hl.
    destruct Hinv as (H1 & H2 & H3 & H4 & H5). simpl in H1.
    pose proof (concat_full_length batch_size fl H2) as Hcl.
    destruct buf as [|x buf'].
    + rewrite app_nil_r in H1. subst rows. split; [reflexivity|].
      split; [exists fl, []; rewrite app_nil_r; auto|].
      split; [exact H4|]. split; [exact H5|].
      rewrite H5, Hcl. apply (Z.div_unique _ _ _ (batch_size - 1)); lia.
    + assert (Hlen : length rows = (length (concat fl) + length (x :: buf'))%nat)
        by (rewrite <- H1; apply length_app).
      split; [rewrite concat_app; simpl; now rewrite app_nil_r|].
      split; [exists fl, [x :: buf']; split; [reflexivity|]; split; [exact H2|]|].
      { right. exists (x :: buf'). split; [reflexivity|]. simpl length. simpl length in H3. lia. }
      split; [rewrite H4, Hlen; lia|].
      rewrite length_app, H5. simpl length. split; [lia|].
      rewrite Hlen, Nat2Z.inj_add, Hcl.
      apply (Z.div_unique _ _ _ (Z.of_nat (length (x :: buf')) - 1)); simpl length in *; lia.
Qed.

Lemma insert_items_in_batches_spec_witness :
  let rows := map (fun i => Build_item 1 i 1 0%Q) [1; 2; 3; 4; 5; 6; 7] in
  let '(chunks, (total, batches)) := insert_items_in_batches rows 3 in
  concat chunks = rows /\
  (exists full last, chunks = full ++ last /\
     Forall (fun c => Z.of_nat (length c) = 3) full /\
     (last = [] \/ exists c, last = [c] /\ 0 < Z.of_nat (length c) < 3)) /\
  total = Z.of_nat (length rows) /\ batches = Z.of_nat (length chunks) /\
  batches = (Z.of_nat (length rows) + 3 - 1) / 3.
Proof.
  exact (insert_items_in_batches_spec
           (map (fun i => Build_item 1 i 1 0%Q) [1; 2; 3; 4; 5; 6; 7]) 3 ltac:(lia)).
Defined.

(** ** The rows of one order, traced through [simulate_order] *)

(** The rows of order [o] in a run are what [finalize] returns after
    one draw of the planned attempts, of the attempt times, of the
    first method and one attempt loop. *)
Lemma order_rows_chain {R} `{PyRandom R}
  (config : list (string * method_cfg)) (method_id_by_code status_id_by_code : list (string * Z))
  (fuel : nat) (orders : list order_info) (r : R) (rows : list row) (r' : R) (o : order_info) :
  NoDup (map order_id orders) -> In o orders ->
  gen_rows config method_id_by_code status_id_by_code fuel orders r = Ok (rows, r') ->
  exists r1 n r2 ts r3 m r4 st r5 r6,
    draw_total_attempts_planned r1 = Ok (n, r2) /\
    sorted_attempt_times fuel (order_date o) n r2 = Ok (ts, r3) /\
    weighted_choice_key (build_method_weights config) r3 = Ok (m, r4) /\
    attempt_loop config method_id_by_code status_id_by_code o ts (init_state m) r4 = Ok (st, r5) /\
    finalize method_id_by_code status_id_by_code o ts st r5
      = Ok (rows_of_order (order_id o) rows, r6).
Proof.
  intros Hnd Hin Hrun.
  destruct (gen_rows_segment _ _ _ _ _ _ _ _ _ Hnd Hin Hrun) as (r1 & r1' & E).
  unfold simulate_order in E.
  inv_bind E. inv_bind E. inv_bind E. inv_bind E.
  exists r1, a, r0, a0, r2, a1, r3, a2, r4, r1'. repeat split; assumption.
Qed.

(** When no configured method has an id, no attempt appends a row. *)
Lemma attempt_loop_no_known_rows {R} `{PyRandom R}
  (config : list (string * method_cfg)) (method_id_by_code status_id_by_code : list (string * Z))
  (o : order_info) ts st (r : R) st' r' :
  (forall m c, In (m, c) config -> lookup String.eqb m method_id_by_code = None) ->
  ls_rows st = [] ->
  attempt_loop config method_id_by_code status_id_by_code o ts st r = Ok (st', r') ->
  ls_rows st' = [].
Proof.
  intros Hno. revert ts st r st' r'.
  apply (attempt_loop_preserves config method_id_by_code status_id_by_code o
           (fun st => ls_rows st = [])).
  intros t st r c st' r' Hr _ E.
  apply attempt_body_ok in E as [(_ & _ & _ & _ & Hr')|(m & cfg & r1 & Hcfg & _ & E)].
  - congruence.
  - apply attempt_with_ok in E as (_ & _ & _ & E).
    rewrite (Hno m cfg Hcfg) in E.
    destruct E as [(_ & _ & _ & Hr')|[(mid & f & Hm & _)|(mid & p & Hm & _)]];
      [simpl in Hr'; congruence|discriminate|discriminate].
Qed.

(** C2 (amended): the rows of a cancelled order in a run are all
    ['failed'] rows, or ['failed'] rows followed by one ['paid'] row for
    the order total (a natural success); they are exactly the rows of the
    attempt loop, each dated at one of the order's attempt times, so no
    forced-resolution row (dated one second after the last attempt time,
    or after the order date) is added; and when no configured method has
    an id in [payment_methods] the order has no row at all. *)
Theorem cancelled_order_rows {R} `{PyRandom R}
  (config : list (string * method_cfg)) (method_id_by_code status_id_by_code : list (string * Z))
  (fuel : nat) (orders : list order_info) (r : R) (rows : list row) (r' : R)
  (o : order_info)
  (Hnd : NoDup (map order_id orders)) (Hin : In o orders)
  (Hc : order_status o = CANCELLED_STATUS)
  (Hrun : gen_rows config method_id_by_code status_id_by_code fuel orders r = Ok (rows, r')) :
  (Forall (failed_row status_id_by_code) (rows_of_order (order_id o) rows) \/
   exists pre x, rows_of_order (order_id o) rows = pre ++ [x] /\
     Forall (failed_row status_id_by_code) pre /\ paid_row status_id_by_code o x) /\
  (exists r1 n r2 ts r3 m r4 st r5,
    draw_total_attempts_planned r1 = Ok (n, r2) /\
    sorted_attempt_times fuel (order_date o) n r2 = Ok (ts, r3) /\
    weighted_choice_key (build_method_weights config) r3 = Ok (m, r4) /\
    attempt_loop config method_id_by_code status_id_by_code o ts (init_state m) r4 = Ok (st, r5) /\
    rows_of_order (order_id o) rows = ls_rows st /\
    incl (map r_payment_date (rows_of_order (order_id o) rows)) ts) /\
  ((forall m c, In (m, c) config -> lookup String.eqb m method_id_by_code = None) ->
   rows_of_order (order_id o) rows = []).
Proof.
  destruct (gen_rows_segment _ _ _ _ _ _ _ _ _ Hnd Hin Hrun) as (r0 & r0' & Es).
  pose proof (simulate_order_ok _ _ _ _ _ _ _ _ Es) as (_ & _ & Hcan & _).
  destruct (order_rows_chain _ _ _ _ _ _ _ _ _ Hnd Hin Hrun)
    as (r1 & n & r2 & ts & r3 & m & r4 & st & r5 & r6 & Hd & Ht & Hw & Hl & Hf).
  assert (Hrows : rows_of_order (order_id o) rows = ls_rows st).
  { apply finalize_ok in Hf as [(_ & E)|[(_ & _ & E)|(_ & Hnc & _)]]; auto. congruence. }
  split; [exact (Hcan Hc)|]. split.
  - exists r1, n, r2, ts, r3, m, r4, st, r5. do 5 (split; [assumption|]).
    destruct (sorted_attempt_times_ok _ _ _ _ _ _ Ht) as (_ & _ & Hsi & _).
    destruct (attempt_loop_dates _ _ _ _ _ _ _ _ _ Hl Hsi) as (new & Hnew & _ & Hincl & _).
    simpl in Hnew. rewrite Hrows, Hnew. exact Hincl.
  - intro Hno. rewrite Hrows.
    exact (attempt_loop_no_known_rows config method_id_by_code status_id_by_code o ts
             (init_state m) r4 st r5 Hno eq_refl Hl).
Qed.

Lemma cancelled_order_rows_witness :
  NoDup (map order_id [cancelled_order]) /\ In cancelled_order [cancelled_order] /\
  order_status cancelled_order = CANCELLED_STATUS /\
  gen_rows (card_only_config 1) [("card"%string, 10)] example_status_ids 100
    [cancelled_order] (Build_scripted [1#10; 1#2; 3#10]%Q [5])
    = Ok ([Build_row 8 1 1006 (100#1) 10 1], Build_scripted [] []) /\
  ((Forall (failed_row example_status_ids)
      (rows_of_order (order_id cancelled_order) [Build_row 8 1 1006 (100#1) 10 1]) \/
    exists pre x, rows_of_order (order_id cancelled_order) [Build_row 8 1 1006 (100#1) 10 1]
                  = pre ++ [x] /\
      Forall (failed_row example_status_ids) pre /\ paid_row example_status_ids cancelled_order x) /\
   (exists r1 n r2 ts r3 m r4 st r5,
     draw_total_attempts_planned r1 = Ok (n, r2) /\
     sorted_attempt_times 100 (order_date cancelled_order) n r2 = Ok (ts, r3) /\
     weighted_choice_key (build_method_weights (card_only_config 1)) r3 = Ok (m, r4) /\
     attempt_loop (card_only_config 1) [("card"%string, 10)] example_status_ids cancelled_order
       ts (init_state m) r4 = Ok (st, r5) /\
     rows_of_order (order_id cancelled_order) [Build_row 8 1 1006 (100#1) 10 1] = ls_rows st /\
     incl (map r_payment_date
             (rows_of_order (order_id cancelled_order) [Build_row 8 1 1006 (100#1) 10 1])) ts) /\
   ((forall m c, In (m, c) (card_only_config 1) ->
       lookup String.eqb m [("card"%string, 10)] = None) ->
    rows_of_order (order_id cancelled_order) [Build_row 8 1 1006 (100#1) 10 1] = [])).
Proof.
  assert (Hnd : NoDup (map order_id [cancelled_order])) by (simpl; constructor; [simpl; tauto|constructor]).
  assert (Hin : In cancelled_order [cancelled_order]) by (simpl; now left).
  assert (Hc : order_status cancelled_order = CANCELLED_STATUS) by reflexivity.
  assert (Hrun : gen_rows (card_only_config 1) [("card"%string, 10)] example_status_ids 100
                   [cancelled_order] (Build_scripted [1#10; 1#2; 3#10]%Q [5])
                 = Ok ([Build_row 8 1 1006 (100#1) 10 1], Build_scripted [] []))
    by (vm_compute; reflexivity).
  split; [exact Hnd|]. split; [exact Hin|]. split; [exact Hc|]. split; [exact Hrun|].
  exact (cancelled_order_rows (card_only_config 1) [("card"%string, 10)] example_status_ids 100
           [cancelled_order] _ _ _ cancelled_order Hnd Hin Hc Hrun).
Defined.

(** C10 (amended): in an attempt, the success draw [random.random()] is
    made before the method's id is looked up. An attempt whose method
    has no id in [payment_methods] is skipped: the draw is consumed, the
    attempt number and the method's count still increase, no row is
    added and the loop goes on. An attempt with a known method whose
    draw is below the success rate appends its natural ['paid'] row and
    ends the loop. When the loop ends paid, [finalize] adds no row; when
    it ends unpaid for a non-cancelled order, [finalize] adds the forced
    ['paid'] row, numbered one after the last attempt. In a run, the rows
    of a non-cancelled order are those of its attempt loop, followed by
    the forced row exactly when the loop ended unpaid. *)
Theorem unknown_method_attempt_skipped {R} `{PyRandom R}
  (config : list (string * method_cfg)) (method_id_by_code status_id_by_code : list (string * Z))
  (o : order_info) :
  (forall t m c st (r : R),
     lookup String.eqb m config = Some c ->
     lookup String.eqb m method_id_by_code = None ->
     attempt_with config method_id_by_code status_id_by_code o t m st r
     = Ok ((Continue, Build_loop_state (ls_paid st) (ls_attempt_no st + 1) (ls_current st)
                        (incr_count (ls_counts st) m) (ls_rows st)),
           snd (rng_random r))) /\
  (forall t m c i p st (r : R),
     lookup String.eqb m config = Some c ->
     lookup String.eqb m method_id_by_code = Some i ->
     lookup String.eqb "paid"%string status_id_by_code = Some p ->
     Qltb (fst (rng_random r)) (cfg_success_rate c) = true ->
     attempt_with config method_id_by_code status_id_by_code o t m st r
     = Ok ((Break, Build_loop_state true (ls_attempt_no st + 1) (ls_current st)
                     (incr_count (ls_counts st) m)
                     (ls_rows st ++ [Build_row (order_id o) (ls_attempt_no st + 1) t
                                       (order_total o) i p])),
           snd (rng_random r))) /\
  (forall times st (r : R),
     ls_paid st = true ->
     finalize method_id_by_code status_id_by_code o times st r = Ok (ls_rows st, r)) /\
  (forall times st (r : R) rows r',
     ls_paid st = false -> order_status o <> CANCELLED_STATUS ->
     finalize method_id_by_code status_id_by_code o times st r = Ok (rows, r') ->
     exists mid p, lookup String.eqb "paid"%string status_id_by_code = Some p /\
       rows = ls_rows st ++ [Build_row (order_id o) (ls_attempt_no st + 1)
                               (forced_date o times) (order_total o) mid p]) /\
  (forall fuel orders (r : R) rows r',
     NoDup (map order_id orders) -> In o orders -> order_status o <> CANCELLED_STATUS ->
     gen_rows config method_id_by_code status_id_by_code fuel orders r = Ok (rows, r') ->
     exists r1 n r2 ts r3 m r4 st r5,
       draw_total_attempts_planned r1 = Ok (n, r2) /\
       sorted_attempt_times fuel (order_date o) n r2 = Ok (ts, r3) /\
       weighted_choice_key (build_method_weights config) r3 = Ok (m, r4) /\
       attempt_loop config method_id_by_code status_id_by_code o ts (init_state m) r4
         = Ok (st, r5) /\
       (ls_paid st = true -> rows_of_order (order_id o) rows = ls_rows st) /\
       (ls_paid st = false ->
          exists mid p, lookup String.eqb "paid"%string status_id_by_code = Some p /\
            rows_of_order (order_id o) rows
            = ls_rows st ++ [Build_row (order_id o) (ls_attempt_no st + 1)
                               (forced_date o ts) (order_total o) mid p])).
Proof.
  split; [|split; [|split; [|split]]].
  - intros t m c st r Hc Hm. unfold attempt_with, cfg_get.
    rewrite Hc. unfold bind at 1, ret at 1. unfold bind at 1, random.
    destruct (rng_random r) as [u r1]. cbv beta iota zeta. rewrite Hm. reflexivity.
  - intros t m c i p st r Hc Hm Hp Hu. unfold attempt_with, cfg_get.
    rewrite Hc. unfold bind at 1, ret at 1. unfold bind at 1, random.
    destruct (rng_random r) as [u r1]. simpl fst in Hu. simpl snd.
    cbv beta iota zeta. rewrite Hm, Hu. unfold status_get. rewrite Hp. reflexivity.
  - intros times st r Hp. unfold finalize. rewrite Hp. reflexivity.
  - intros times st r rows r' Hp Hnc E.
    apply finalize_ok in E as [(Hp' & _)|[(_ & Hc & _)|(_ & _ & E)]];
      [congruence|contradiction|exact E].
  - intros fuel orders r rows r' Hnd Hin Hnc Hrun.
    destruct (order_rows_chain _ _ _ _ _ _ _ _ _ Hnd Hin Hrun)
      as (r1 & n & r2 & ts & r3 & m & r4 & st & r5 & r6 & Hd & Ht & Hw & Hl & Hf).
    exists r1, n, r2, ts, r3, m, r4, st, r5. do 4 (split; [assumption|]).
    apply finalize_ok in Hf as [(Hp & E)|[(_ & Hc & _)|(Hp & _ & E)]];
      [|contradiction|]; split; intro Hp'; congruence || exact E.
Qed.

Lemma unknown_method_attempt_skipped_witness :
  attempt_with PAYMENT_METHOD_CONFIG [("paypal"%string, 2)] example_status_ids delivered_order
    1011 "card"%string (init_state "card"%string) (Build_scripted [1#10]%Q [])
  = Ok ((Continue, Build_loop_state false 1 "card"%string (incr_count (fun _ => 0) "card"%string) []),
        Build_scripted [] []).
Proof.
  destruct (lookup String.eqb "card"%string PAYMENT_METHOD_CONFIG) as [c|] eqn:Hc;
    [|vm_compute in Hc; discriminate].
  exact (proj1 (unknown_method_attempt_skipped PAYMENT_METHOD_CONFIG [("paypal"%string, 2)]
                  example_status_ids delivered_order)
           1011 "card"%string c (init_state "card"%string) (Build_scripted [1#10]%Q []) Hc eq_refl).
Defined.
